(** * Episode storage and retrieval of podcast-chatbot-backend

    A shallow embedding of [services/pinecone_service.py],
    [services/db_service.py] (episode part) and
    [managers/episode_manager.py].  Python strings are modelled as
    ASCII [string]s, so [len] counts characters.  Exceptions raised by an
    external call are modelled by the [Py] error monad, and which external
    call raises in a request is fixed by a [Faults] record. *)

From Stdlib Require Import String Ascii List Bool Arith Lia QArith DecimalString DecimalNat FinFun Sorted.
Import ListNotations.
Open Scope list_scope.
Open Scope string_scope.
Open Scope nat_scope.
Set Warnings "-abstract-large-number".

(** ** Python string methods used by the code *)
Module PyStr.

(** [str.isspace] on one ASCII character: \t \n \v \f \r, the
    separators \x1c-\x1f and the space. *)
Definition is_space (c : ascii) : bool :=
  let n := nat_of_ascii c in
  ((9 <=? n) && (n <=? 13)) || ((28 <=? n) && (n <=? 32)).

Fixpoint lstrip (s : string) : string :=
  match s with
  | EmptyString => EmptyString
  | String c s' => if is_space c then lstrip s' else s
  end.

Fixpoint rstrip (s : string) : string :=
  match s with
  | EmptyString => EmptyString
  | String c s' =>
      let r := rstrip s' in
      if String.eqb r "" && is_space c then "" else String c r
  end.

(** [str.strip()] *)
Definition strip (s : string) : string := rstrip (lstrip s).

Definition lower_char (c : ascii) : ascii :=
  let n := nat_of_ascii c in
  if (65 <=? n) && (n <=? 90) then ascii_of_nat (n + 32) else c.

Fixpoint map_chars (f : ascii -> ascii) (s : string) : string :=
  match s with
  | EmptyString => EmptyString
  | String c s' => String (f c) (map_chars f s')
  end.

(** [str.lower()] *)
Definition lower (s : string) : string := map_chars lower_char s.

(** [str.replace(a, b)] for one-character [a] and [b] *)
Definition replace_char (a b : ascii) (s : string) : string :=
  map_chars (fun c => if Ascii.eqb c a then b else c) s.

(** [re.search(re.escape(sep), s) is not None] *)
Fixpoint contains (sep s : string) : bool :=
  String.prefix sep s ||
  match s with
  | EmptyString => false
  | String _ s' => contains sep s'
  end.

Fixpoint drop_chars (n : nat) (s : string) : string :=
  match n, s with
  | O, _ => s
  | S n', String _ s' => drop_chars n' s'
  | S _, EmptyString => EmptyString
  end.

(** The pieces of [s] between the non-overlapping, left-to-right
    occurrences of the non-empty literal [sep]; these are the
    even-indexed items of [re.split("(" + re.escape(sep) + ")", s)]. *)
Fixpoint split_go (sep : string) (fuel : nat) (cur s : string) : list string :=
  match fuel with
  | O => [cur ++ s]
  | S fuel' =>
      match s with
      | EmptyString => [cur]
      | String c s' =>
          if String.prefix sep s
          then cur :: split_go sep fuel' "" (drop_chars (String.length sep) s)
          else split_go sep fuel' (cur ++ String c "") s'
      end
  end.

Definition split_on (sep s : string) : list string :=
  split_go sep (S (String.length s)) "" s.

Fixpoint chars (s : string) : list string :=
  match s with
  | EmptyString => []
  | String c s' => String c "" :: chars s'
  end.

(** [str(n)] for a non-negative [int] *)
Definition str_nat (n : nat) : string := NilZero.string_of_uint (Nat.to_uint n).

End PyStr.

Import PyStr.

(** ** langchain_text_splitters.RecursiveCharacterTextSplitter

    The splitter built in [PineconeService.__init__]:
    [RecursiveCharacterTextSplitter(chunk_size=1000, chunk_overlap=100,
    separators=["\n\n", "\n", ". ", " ", ""])] with the library defaults
    [keep_separator=True] (separator kept at the start of the following
    piece), [strip_whitespace=True], [is_separator_regex=False] and
    [length_function=len]. *)
Module TextSplitter.

Definition chunk_size : nat := 1000.
Definition chunk_overlap : nat := 100.

Definition nl : string := String (ascii_of_nat 10) "".

Definition separators : list string := [nl ++ nl; nl; ". "; " "; ""].

(** [_split_text_with_regex(text, re.escape(separator), keep_separator=True)] *)
Definition split_text_with_regex (text separator : string) : list string :=
  if String.eqb separator "" then chars text
  else
    match split_on separator text with
    | [] => []
    | p0 :: ps =>
        filter (fun s => negb (String.eqb s "")) (p0 :: map (String.append separator) ps)
    end.

(** [TextSplitter._join_docs] *)
Definition join_docs (docs : list string) (separator : string) : option string :=
  let text := strip (String.concat separator docs) in
  if String.eqb text "" then None else Some text.

Definition opt_cons {A} (o : option A) (l : list A) : list A :=
  match o with Some x => x :: l | None => l end.

(** The [while] loop of [_merge_splits] that drops pieces from the front
    of [current_doc] until the overlap fits. *)
Fixpoint pop_front (d_len sep_len : nat) (current : list string) (total : nat)
  : list string * nat :=
  match current with
  | [] => ([], total)
  | c :: rest =>
      if (chunk_overlap <? total)
         || ((chunk_size <? total + d_len + sep_len) && (0 <? total))
      then pop_front d_len sep_len rest
             (total - (String.length c + (match rest with [] => 0 | _ => sep_len end)))
      else (current, total)
  end.

(** The [for d in splits] loop of [TextSplitter._merge_splits];
    [docs_rev] holds [docs] in reverse order. *)
Fixpoint merge_go (separator : string) (splits docs_rev current : list string)
  (total : nat) : list string :=
  let sep_len := String.length separator in
  match splits with
  | [] => rev (opt_cons (join_docs current separator) docs_rev)
  | d :: rest =>
      let len := String.length d in
      let extra := match current with [] => 0 | _ => sep_len end in
      let '(docs1, cur1, tot1) :=
        if chunk_size <? total + len + extra then
          match current with
          | [] => (docs_rev, current, total)
          | _ =>
              let docs1 := opt_cons (join_docs current separator) docs_rev in
              let '(cur1, tot1) := pop_front len sep_len current total in
              (docs1, cur1, tot1)
          end
        else (docs_rev, current, total) in
      let cur2 := (cur1 ++ [d])%list in
      merge_go separator rest docs1 cur2
        (tot1 + len + (if 1 <? List.length cur2 then sep_len else 0))
  end.

Definition merge_splits (splits : list string) (separator : string) : list string :=
  merge_go separator splits [] [] 0.

(** The separator search at the start of [_split_text]. *)
Fixpoint choose_go (text : string) (seps : list string) : option (string * list string) :=
  match seps with
  | [] => None
  | s :: rest =>
      if String.eqb s "" then Some ("", [])
      else if contains s text then Some (s, rest)
      else choose_go text rest
  end.

Definition choose_separator (text : string) (seps : list string) : string * list string :=
  match choose_go text seps with
  | Some r => r
  | None => (last seps "", [])
  end.

(** The [for s in splits] loop of [_split_text]; [recurse] is the
    recursive call [self._split_text(s, new_separators)] and [good_rev]
    holds [_good_splits] in reverse order. *)
Fixpoint process_splits (recurse : string -> list string) (new_separators : list string)
  (separator : string) (splits good_rev : list string) : list string :=
  match splits with
  | [] =>
      match good_rev with
      | [] => []
      | _ => merge_splits (rev good_rev) separator
      end
  | s :: rest =>
      if String.length s <? chunk_size
      then process_splits recurse new_separators separator rest (s :: good_rev)
      else
        (match good_rev with
         | [] => []
         | _ => merge_splits (rev good_rev) separator
         end
         ++ match new_separators with
            | [] => [s]
            | _ => recurse s
            end
         ++ process_splits recurse new_separators separator rest [])%list
  end.

(** [RecursiveCharacterTextSplitter._split_text]; [fuel] bounds the
    recursion depth, which the shrinking separator list bounds in Python. *)
Fixpoint split_text_go (fuel : nat) (text : string) (seps : list string) : list string :=
  match fuel with
  | O => []
  | S fuel' =>
      let '(separator, new_separators) := choose_separator text seps in
      let splits := split_text_with_regex text separator in
      process_splits (fun s => split_text_go fuel' s new_separators)
        new_separators "" splits []
  end.

(** [self.text_splitter.split_text(text)] *)
Definition split_text (text : string) : list string :=
  split_text_go (List.length separators) text separators.

End TextSplitter.

(** ** Exceptions

    [Raise e] is a Python exception of class [e] escaping a call. *)
Inductive Py (A : Type) : Type :=
| Ok (a : A)
| Raise (exc : string).
Arguments Ok {A} a.
Arguments Raise {A} exc.

Definition py_bind {A B} (m : Py A) (k : A -> Py B) : Py B :=
  match m with
  | Ok a => k a
  | Raise e => Raise e
  end.

Notation "x <- m ;; k" := (py_bind m (fun x => k))
  (at level 61, m at next level, right associativity).
Notation "' p <- m ;; k" := (py_bind m (fun x => match x with p => k end))
  (at level 61, p pattern, m at next level, right associativity).

(** Which external calls raise during one request. *)
Record Faults := {
  f_index : bool;   (** [self.pc.Index(...)] *)
  f_embed : bool;   (** [OpenAIEmbeddings.embed_documents] / [embed_query] *)
  f_query : bool;   (** [index.query] *)
  f_upsert : bool;  (** [index.upsert] *)
  f_delete : bool;  (** [index.delete] *)
  f_commit : bool;  (** [db.session.commit] *)
  f_refresh : bool  (** what runs after a successful commit in the same [try]:
                        [db.session.refresh], and on create the log line
                        reading [episode.expert.name] *)
}.

Definition no_faults : Faults :=
  {| f_index := false; f_embed := false; f_query := false;
     f_upsert := false; f_delete := false; f_commit := false;
     f_refresh := false |}.

(** The metrics a Pinecone index can be created with. *)
Inductive Metric := Cosine | Dotproduct | Euclidean.

(** The embedding model and the index: its [metric] (the configured
    [PINECONE_METRIC] when [_ensure_index_exists] created it) and the
    [similarity] score it reports for that metric (a distance for
    [Euclidean]). *)
Record Provider := {
  embed : string -> list Q;
  metric : Metric;
  similarity : list Q -> list Q -> Q
}.

(** [MyConfig]: the attributes the service reads.  [PINECONE_TOP_K] is
    [None] when the attribute is missing, as in [config.py]. *)
Record Config := {
  PINECONE_TOP_K : option nat;
  PINECONE_DIMENSION : nat
}.

Definition MyConfig : Config := {| PINECONE_TOP_K := None; PINECONE_DIMENSION := 3072 |}.

(** ** The Pinecone index: namespaced vectors with metadata *)
Module Pinecone.

Record Metadata := {
  md_episode_id : string;
  md_episode_title : string;
  md_chunk_index : nat;
  md_text : string
}.

Record Vector := {
  v_id : string;
  v_values : list Q;
  v_metadata : Metadata
}.

Record Match := {
  m_id : string;
  m_score : Q;
  m_metadata : option Metadata   (** [None] unless [include_metadata] *)
}.

(** Calls that reached the index, most recent first. *)
Inductive Call :=
| CallUpsert (namespace : string) (ids : list string)
| CallQuery (namespace : string)
| CallDelete (namespace : string) (ids : list string).

Record Index := {
  spaces : list (string * list Vector);
  calls : list Call
}.

Definition empty_index : Index := {| spaces := []; calls := [] |}.

Fixpoint lookup_ns (sp : list (string * list Vector)) (ns : string) : list Vector :=
  match sp with
  | [] => []
  | (n, vs) :: rest => if String.eqb n ns then vs else lookup_ns rest ns
  end.

Fixpoint set_ns (sp : list (string * list Vector)) (ns : string) (vs : list Vector)
  : list (string * list Vector) :=
  match sp with
  | [] => [(ns, vs)]
  | (n, ws) :: rest =>
      if String.eqb n ns then (n, vs) :: rest else (n, ws) :: set_ns rest ns vs
  end.

Definition records (idx : Index) (ns : string) : list Vector := lookup_ns (spaces idx) ns.

(** Upserting a vector replaces the record with the same id, or adds it. *)
Fixpoint upsert_one (recs : list Vector) (v : Vector) : list Vector :=
  match recs with
  | [] => [v]
  | r :: rest => if String.eqb (v_id r) (v_id v) then v :: rest else r :: upsert_one rest v
  end.

Definition upsert (idx : Index) (ns : string) (vs : list Vector) : Index :=
  {| spaces := set_ns (spaces idx) ns (fold_left upsert_one vs (records idx ns));
     calls := CallUpsert ns (map v_id vs) :: calls idx |}.

Definition delete_ids (idx : Index) (ns : string) (ids : list string) : Index :=
  {| spaces := set_ns (spaces idx) ns
                 (filter (fun r => negb (existsb (String.eqb (v_id r)) ids)) (records idx ns));
     calls := CallDelete ns ids :: calls idx |}.

(** Metadata filter [{"episode_id": e}] *)
Definition passes (flt : option string) (r : Vector) : bool :=
  match flt with
  | None => true
  | Some e => String.eqb (md_episode_id (v_metadata r)) e
  end.

(** A score [a] ranks at least as high as [b]: higher scores first for
    cosine and dot product, smaller distances first for euclidean. *)
Definition ranks_before (mt : Metric) (a b : Q) : bool :=
  match mt with
  | Euclidean => Qle_bool a b
  | Cosine | Dotproduct => Qle_bool b a
  end.

(** Stable insertion, best match first for the metric. *)
Fixpoint insert_ranked (mt : Metric) (m : Match) (ms : list Match) : list Match :=
  match ms with
  | [] => [m]
  | m' :: rest =>
      if ranks_before mt (m_score m') (m_score m) then m' :: insert_ranked mt m rest
      else m :: ms
  end.

Definition rank (mt : Metric) (ms : list Match) : list Match := fold_right (insert_ranked mt) [] ms.

(** [index.query(vector, top_k, include_metadata, namespace, filter)] *)
Definition query_result (P : Provider) (idx : Index) (ns : string) (qv : list Q)
  (top_k : nat) (include_metadata : bool) (flt : option string) : list Match :=
  firstn top_k
    (rank (metric P) (map (fun r => {| m_id := v_id r; m_score := similarity P qv (v_values r);
                            m_metadata := if include_metadata then Some (v_metadata r) else None |})
               (filter (passes flt) (records idx ns)))).

Definition query (P : Provider) (F : Faults) (idx : Index) (ns : string) (qv : list Q)
  (top_k : nat) (include_metadata : bool) (flt : option string) : Py (list Match * Index) :=
  if f_query F then Raise "PineconeApiException"
  else Ok (query_result P idx ns qv top_k include_metadata flt,
           {| spaces := spaces idx; calls := CallQuery ns :: calls idx |}).

Definition index_upsert (F : Faults) (idx : Index) (ns : string) (vs : list Vector) : Py Index :=
  if f_upsert F then Raise "PineconeApiException" else Ok (upsert idx ns vs).

Definition index_delete (F : Faults) (idx : Index) (ns : string) (ids : list string) : Py Index :=
  if f_delete F then Raise "PineconeApiException" else Ok (delete_ids idx ns ids).

(** [index.delete(delete_all=True, namespace=ns)]: every vector of the
    namespace goes.  The call log keeps the per-vector calls only. *)
Definition delete_all (idx : Index) (ns : string) : Index :=
  {| spaces := set_ns (spaces idx) ns []; calls := calls idx |}.

Definition index_delete_all (F : Faults) (idx : Index) (ns : string) : Py Index :=
  if f_delete F then Raise "PineconeApiException" else Ok (delete_all idx ns).

End Pinecone.

Import Pinecone.

(** ** Relational rows ([database/db_models.py]) *)
Record DbExpert := {
  ex_id : string;
  ex_name : string
}.

Record Episode := {
  ep_id : string;          (** [str(episode.id)] *)
  ep_expert_id : string;
  ep_title : string;
  ep_content : string
}.

(** ** [services/pinecone_service.py] *)
Module PineconeService.

(** [db_expert_name.lower().replace(" ", "_")] *)
Definition namespace_of (name : string) : string := replace_char " " "_" (lower name).

Definition pc_Index (F : Faults) : Py unit :=
  if f_index F then Raise "PineconeException" else Ok tt.

Definition embed_documents (P : Provider) (F : Faults) (texts : list string) : Py (list (list Q)) :=
  if f_embed F then Raise "OpenAIError" else Ok (map (embed P) texts).

Definition embed_query (P : Provider) (F : Faults) (text : string) : Py (list Q) :=
  if f_embed F then Raise "OpenAIError" else Ok (embed P text).

(** The [for i, (chunk, embedding) in enumerate(zip(chunks, embeddings))] loop. *)
Fixpoint build_vectors (episode_id episode_title : string) (i : nat)
  (chunks : list string) (embeddings : list (list Q)) : list Vector :=
  match chunks, embeddings with
  | chunk :: cs, embedding :: es =>
      {| v_id := episode_id ++ "_chunk_" ++ str_nat i;
         v_values := embedding;
         v_metadata := {| md_episode_id := episode_id; md_episode_title := episode_title;
                          md_chunk_index := i; md_text := chunk |} |}
      :: build_vectors episode_id episode_title (S i) cs es
  | _, _ => []
  end.

(** [f"Content: {episode.content}"] *)
Definition full_content (episode : Episode) : string := "Content: " ++ ep_content episode.

(** The body of the [try] of [store_episode_content]. *)
Definition store_body (P : Provider) (F : Faults) (idx : Index) (episode : Episode)
  (db_expert_name : string) : Py Index :=
  _ <- pc_Index F;;
  let chunks := TextSplitter.split_text (full_content episode) in
  embeddings <- embed_documents P F chunks;;
  let vectors := build_vectors (ep_id episode) (ep_title episode) 0 chunks embeddings in
  index_upsert F idx (namespace_of db_expert_name) vectors.

Definition store_episode_content (P : Provider) (F : Faults) (idx : Index) (episode : Episode)
  (db_expert_name : string) : Py (bool * Index) :=
  match store_body P F idx episode db_expert_name with
  | Ok idx' => Ok (true, idx')
  | Raise _ => Ok (false, idx)
  end.

Record RelevantChunk := {
  rc_text : string;
  rc_score : Q;
  rc_episode_title : string;
  rc_episode_id : string;
  rc_metadata : Metadata
}.

(** [match.metadata.get(...)]: [AttributeError] when metadata is [None]. *)
Definition format_match (m : Match) : Py RelevantChunk :=
  match m_metadata m with
  | None => Raise "AttributeError"
  | Some md => Ok {| rc_text := md_text md; rc_score := m_score m;
                    rc_episode_title := md_episode_title md;
                    rc_episode_id := md_episode_id md; rc_metadata := md |}
  end.

Fixpoint format_matches (ms : list Match) : Py (list RelevantChunk) :=
  match ms with
  | [] => Ok []
  | m :: rest => c <- format_match m;; cs <- format_matches rest;; Ok (c :: cs)
  end.

(** [self.config.PINECONE_TOP_K] *)
Definition config_top_k (cfg : Config) : Py nat :=
  match PINECONE_TOP_K cfg with
  | Some k => Ok k
  | None => Raise "AttributeError"
  end.

Definition query_body (P : Provider) (F : Faults) (cfg : Config) (idx : Index)
  (query : string) (namespace : string) (include_metadata : bool)
  : Py (list RelevantChunk * Index) :=
  _ <- pc_Index F;;
  query_embedding <- embed_query P F query;;
  top_k <- config_top_k cfg;;
  '(matches, idx') <- Pinecone.query P F idx namespace query_embedding top_k include_metadata None;;
  relevant_chunks <- format_matches matches;;
  Ok (relevant_chunks, idx').

Definition query_knowledge (P : Provider) (F : Faults) (cfg : Config) (idx : Index)
  (query : string) (namespace : string) (include_metadata : bool)
  : Py (list RelevantChunk * Index) :=
  match query_body P F cfg idx query namespace include_metadata with
  | Ok r => Ok r
  | Raise _ => Ok ([], idx)
  end.

Definition delete_body (P : Provider) (F : Faults) (cfg : Config) (idx : Index)
  (episode_id namespace : string) : Py Index :=
  _ <- pc_Index F;;
  '(matches, idx1) <- Pinecone.query P F idx namespace
                        (repeat 0%Q (PINECONE_DIMENSION cfg)) 10000 true (Some episode_id);;
  let vector_ids := map m_id matches in
  match vector_ids with
  | [] => Ok idx1
  | _ => index_delete F idx1 namespace vector_ids
  end.

Definition delete_episode (P : Provider) (F : Faults) (cfg : Config) (idx : Index)
  (episode_id namespace : string) : Py (bool * Index) :=
  match delete_body P F cfg idx episode_id namespace with
  | Ok idx' => Ok (true, idx')
  | Raise _ => Ok (false, idx)
  end.

(** The body of the [try] of [delete_namespace]. *)
Definition delete_namespace_body (F : Faults) (idx : Index) (namespace : string) : Py Index :=
  _ <- pc_Index F;;
  index_delete_all F idx (namespace_of namespace).

Definition delete_namespace (F : Faults) (idx : Index) (namespace : string) : Py (bool * Index) :=
  match delete_namespace_body F idx namespace with
  | Ok idx' => Ok (true, idx')
  | Raise _ => Ok (false, idx)
  end.

End PineconeService.

(** ** [services/db_service.py], episode part.  A failing [commit] is
    followed by [rollback], so the rows are unchanged. *)
Module DatabaseService.

Record Db := {
  experts : list DbExpert;
  episodes : list Episode
}.

Definition get_expert_by_id (db : Db) (expert_id : string) : option DbExpert :=
  find (fun e => String.eqb (ex_id e) expert_id) (experts db).

Definition get_episode_by_id (db : Db) (episode_id : string) : option Episode :=
  find (fun e => String.eqb (ep_id e) episode_id) (episodes db).

(** [new_id] is the [uuid4] the row receives. *)
Definition create_episode (F : Faults) (db : Db) (new_id expert_id title content : string)
  : option Episode * Db :=
  let episode := {| ep_id := new_id; ep_expert_id := expert_id;
                    ep_title := title; ep_content := content |} in
  let db' := {| experts := experts db; episodes := episodes db ++ [episode] |} in
  if f_commit F then (None, db)
  else if f_refresh F then (None, db')
  else (Some episode, db').

Definition set_episode (db : Db) (e : Episode) : Db :=
  {| experts := experts db;
     episodes := map (fun x => if String.eqb (ep_id x) (ep_id e) then e else x) (episodes db) |}.

(** [get_episodes(expert_id)], ordered by [desc(Episode.created_at)].
    Rows are kept in insertion order and [created_at] is set by the server
    when the row is committed, so the newest row comes first. *)
Definition get_episodes (db : Db) (expert_id : string) : list Episode :=
  rev (filter (fun e => String.eqb (ep_expert_id e) expert_id) (episodes db)).

(** [update_episode(episode_id, title=..., content=...)] *)
Definition update_episode (F : Faults) (db : Db) (episode_id title content : string)
  : option Episode * Db :=
  match get_episode_by_id db episode_id with
  | None => (None, db)
  | Some episode =>
      let episode' := {| ep_id := ep_id episode; ep_expert_id := ep_expert_id episode;
                         ep_title := title; ep_content := content |} in
      if f_commit F then (None, db)
      else if f_refresh F then (None, set_episode db episode')
      else (Some episode', set_episode db episode')
  end.

Definition delete_episode (F : Faults) (db : Db) (episode_id : string) : bool * Db :=
  match get_episode_by_id db episode_id with
  | None => (false, db)
  | Some _ =>
      if f_commit F then (false, db)
      else (true, {| experts := experts db;
                     episodes := filter (fun x => negb (String.eqb (ep_id x) episode_id))
                                   (episodes db) |})
  end.

End DatabaseService.

(** ** [managers/episode_manager.py] *)
Module EpisodeManager.

Import DatabaseService.

Record State := {
  db : Db;
  index : Index
}.

(** The JSON bodies the manager returns. *)
Inductive Body :=
| BodyEpisode (episode : Episode)   (** [{"success": True, "data": {"episode": ...}}] *)
| BodyOk                            (** [{"success": True}] *)
| BodyMessage (message : string)    (** [{"success": True, "message": ...}] *)
| BodyError (error : string).       (** [{"success": False, "error": ...}] *)

Definition success (b : Body) : bool :=
  match b with BodyError _ => false | _ => true end.

Definition Response := (Body * nat)%type.

(** Request JSON: a dict of string fields. *)
Definition Data := list (string * string).

Fixpoint dict_get (d : Data) (key default : string) : string :=
  match d with
  | [] => default
  | (k, v) :: rest => if String.eqb k key then v else dict_get rest key default
  end.

Definition _validate_data (expert : option DbExpert) (data : Data) : bool * string :=
  match expert with
  | None => (false, "Expert not found")
  | Some _ =>
      match data with
      | [] => (false, "No data provided")
      | _ =>
          let title := strip (dict_get data "title" "") in
          let content := strip (dict_get data "content" "") in
          if String.eqb title "" then (false, "Episode title is required")
          else if String.eqb content "" then (false, "Episode content is required")
          else (true, "")
      end
  end.

Section Manager.
Variable P : Provider.
Variable F : Faults.
Variable cfg : Config.

(** [new_id] is the [uuid4] of the row the database creates. *)
Definition create_episode (st : State) (new_id expert_id : string) (data : Data)
  : Py (Response * State) :=
  let expert := get_expert_by_id (db st) expert_id in
  let '(is_valid, error_message) := _validate_data expert data in
  if negb is_valid then Ok ((BodyError error_message, 400), st)
  else
    let '(episode, db1) := DatabaseService.create_episode F (db st) new_id expert_id
                              (dict_get data "title" "") (dict_get data "content" "") in
    match episode, expert with
    | Some ep, Some ex =>
        '(_, idx1) <- PineconeService.store_episode_content P F (index st) ep (ex_name ex);;
        Ok ((BodyEpisode ep, 201), {| db := db1; index := idx1 |})
    | _, _ => Ok ((BodyError "Failed to create episode", 500), {| db := db1; index := index st |})
    end.

Definition update_episode (st : State) (expert_id episode_id : string) (data : Data)
  : Py (Response * State) :=
  let db_expert := get_expert_by_id (db st) expert_id in
  let '(is_valid, error_message) := _validate_data db_expert data in
  match is_valid, db_expert with
  | true, Some ex =>
      let '(episode, db1) := DatabaseService.update_episode F (db st) episode_id
                                (dict_get data "title" "") (dict_get data "content" "") in
      match episode with
      | None => Ok ((BodyError "Failed to update episode in database", 500),
                    {| db := db1; index := index st |})
      | Some ep =>
          '(is_deleted, idx1) <- PineconeService.delete_episode P F cfg (index st)
                                    episode_id (ex_name ex);;
          if negb is_deleted then
            Ok ((BodyError "Failed to delete old episode content from Pinecone", 500),
                {| db := db1; index := idx1 |})
          else
            '(is_stored, idx2) <- PineconeService.store_episode_content P F idx1 ep (ex_name ex);;
            if negb is_stored then
              Ok ((BodyError "Failed to store updated episode content in Pinecone", 500),
                  {| db := db1; index := idx2 |})
            else Ok ((BodyOk, 200), {| db := db1; index := idx2 |})
      end
  | _, _ => Ok ((BodyError error_message, 400), st)
  end.

Definition delete_episode (st : State) (expert_id episode_id : string)
  : Py (Response * State) :=
  match get_expert_by_id (db st) expert_id with
  | None => Ok ((BodyError "Expert not found", 404), st)
  | Some expert =>
      match get_episode_by_id (db st) episode_id with
      | None => Ok ((BodyError "Episode not found", 404), st)
      | Some _ =>
          '(is_deleted_from_pinecone, idx1) <-
            PineconeService.delete_episode P F cfg (index st) episode_id
              (PineconeService.namespace_of (ex_name expert));;
          if negb is_deleted_from_pinecone then
            Ok ((BodyError "Failed to delete episode from Pinecone", 500),
                {| db := db st; index := idx1 |})
          else
            let '(is_deleted_from_db, db1) := DatabaseService.delete_episode F (db st) episode_id in
            if negb is_deleted_from_db then
              Ok ((BodyError "Failed to delete episode from database", 500),
                  {| db := db1; index := idx1 |})
            else Ok ((BodyMessage "Episode deleted successfully", 200),
                     {| db := db1; index := idx1 |})
      end
  end.

End Manager.

(** [Episode.to_dict()]: [self.expert.name] raises [AttributeError] when
    the episode has no expert row. *)
Record EpisodeDict := {
  d_id : string;
  d_expertName : string;
  d_title : string;
  d_content : string
}.

Definition to_dict (d : Db) (episode : Episode) : Py EpisodeDict :=
  match get_expert_by_id d (ep_expert_id episode) with
  | None => Raise "AttributeError"
  | Some ex => Ok {| d_id := ep_id episode; d_expertName := ex_name ex;
                     d_title := ep_title episode; d_content := ep_content episode |}
  end.

(** The [for db_episode in db_episodes] loop of [get_episodes]. *)
Fixpoint to_dicts (d : Db) (db_episodes : list Episode) : Py (list EpisodeDict) :=
  match db_episodes with
  | [] => Ok []
  | e :: rest => x <- to_dict d e;; xs <- to_dicts d rest;; Ok (x :: xs)
  end.

(** [EpisodeManager.get_episodes]: the listed episodes and the status. *)
Definition get_episodes (st : State) (expert_id : string) : Py (list EpisodeDict * nat) :=
  episodes <- to_dicts (db st) (DatabaseService.get_episodes (db st) expert_id);;
  Ok (episodes, 200).

(** What [update_episode] leaves behind: a rejected input changes
    nothing; a failed relational update leaves the vectors alone, with the
    row unchanged (the commit failed) or already holding the new title and
    content (the refresh after the commit failed); otherwise the row holds
    the new title and content and the response is 200 or names the failed
    vector step. *)
Definition update_outcome (st : State) (episode_id : string) (data : Data)
  (r : Response) (st' : State) : Prop :=
  (success (fst r) = false /\ snd r = 400 /\ st' = st)
  \/ (r = (BodyError "Failed to update episode in database", 500) /\ index st' = index st /\
      (db st' = db st \/
       exists ep,
         DatabaseService.get_episode_by_id (db st) episode_id = Some ep /\
         db st' = DatabaseService.set_episode (db st)
                    {| ep_id := ep_id ep; ep_expert_id := ep_expert_id ep;
                       ep_title := dict_get data "title" "";
                       ep_content := dict_get data "content" "" |}))
  \/ (exists ep,
        DatabaseService.get_episode_by_id (db st) episode_id = Some ep /\
        db st' = DatabaseService.set_episode (db st)
                   {| ep_id := ep_id ep; ep_expert_id := ep_expert_id ep;
                      ep_title := dict_get data "title" "";
                      ep_content := dict_get data "content" "" |} /\
        (r = (BodyOk, 200)
         \/ r = (BodyError "Failed to delete old episode content from Pinecone", 500)
         \/ r = (BodyError "Failed to store updated episode content in Pinecone", 500))).

End EpisodeManager.

(** ** Predicates on chunks used by the splitter lemmas *)

(** No character of [p] is white space. *)
Fixpoint no_space (p : string) : bool :=
  match p with
  | EmptyString => true
  | String c p' => negb (is_space c) && no_space p'
  end.

(** [P_content j]: the chunk [j] begins with "Content:". *)
Definition P_content (j : string) : Prop := String.prefix "Content:" j = true.

(** Invariant of [merge_go] for its first chunk: either no chunk is
    emitted yet and [current] begins with [d], or the first emitted chunk
    begins with "Content:". *)
Definition merge_inv (d : string) (docs_rev current : list string) : Prop :=
  match rev docs_rev with
  | [] => exists cs, current = d :: cs
  | j :: _ => P_content j
  end.

(** The character [a] does not occur in [p]. *)
Fixpoint no_char (a : ascii) (p : string) : bool :=
  match p with
  | EmptyString => true
  | String c p' => negb (Ascii.eqb c a) && no_char a p'
  end.

(** Each namespace of the index holds at most one vector per id. *)
Definition ids_unique (idx : Index) : Prop := forall ns, NoDup (map v_id (records idx ns)).

(** Evaluate the left-hand side of an equation with [vm_compute], leaving
    evars of the right-hand side to be solved by unification. *)
Ltac vm_eval_lhs :=
  match goal with
  | |- ?a = _ =>
      let v := eval vm_compute in a in
      let E := fresh "E" in
      assert (E : a = v) by (vm_compute; reflexivity);
      rewrite E; clear E
  end.

(** ** Concrete requests used by the lemmas below *)
Module Scenario.

Import DatabaseService EpisodeManager.

Fixpoint rep (n : nat) (s : string) : string :=
  match n with O => "" | S n' => s ++ rep n' s end.

(** Every text embeds to [[1]]; a record's score is its first value. *)
Definition P0 : Provider :=
  {| embed := fun _ => [1%Q]; metric := Cosine; similarity := fun _ v => hd 0%Q v |}.

Definition expert : DbExpert := {| ex_id := "x1"; ex_name := "Finance 101" |}.

(** 1509 characters once prefixed: two chunks. *)
Definition old_episode : Episode :=
  {| ep_id := "e1"; ep_expert_id := "x1"; ep_title := "Intro";
     ep_content := rep 300 "word " |}.

Definition stored_index : Index :=
  match PineconeService.store_episode_content P0 no_faults empty_index old_episode "Finance 101" with
  | Ok (_, idx) => idx
  | Raise _ => empty_index
  end.

(** The expert, its episode, and the episode's chunks as
    [create_episode] stored them. *)
Definition stored_state : State :=
  {| db := {| experts := [expert]; episodes := [old_episode] |}; index := stored_index |}.

Definition new_content : string := "Diversification reduces risk.".

Definition update_data : Data := [("title", "Intro"); ("content", new_content)].

Definition upsert_faults : Faults :=
  {| f_index := false; f_embed := false; f_query := false;
     f_upsert := true; f_delete := false; f_commit := false;
     f_refresh := false |}.

Definition fresh_state : State :=
  {| db := {| experts := [expert]; episodes := [] |}; index := empty_index |}.

Definition vec (id : string) (score : Q) (text : string) : Vector :=
  {| v_id := id; v_values := [score];
     v_metadata := {| md_episode_id := "e1"; md_episode_title := "Intro";
                      md_chunk_index := 0; md_text := text |} |}.

Definition scored_index : Index :=
  {| spaces := [("finance_101", [vec "a" (9 # 10) "high"; vec "b" (6 # 10) "mid";
                                 vec "c" (3 # 10) "low"])];
     calls := [] |}.

Definition topk_config : Config := {| PINECONE_TOP_K := Some 5; PINECONE_DIMENSION := 3072 |}.



(** Content opening with a 1000-character word. *)
Definition long_word_episode : Episode :=
  {| ep_id := "e2"; ep_expert_id := "x1"; ep_title := "Long"; ep_content := rep 1000 "a" |}.

(** A second expert, and both experts with [e1] stored for the first. *)
Definition expert2 : DbExpert := {| ex_id := "x2"; ex_name := "Health Talk" |}.

Definition shared_state : State :=
  {| db := {| experts := [expert; expert2]; episodes := [old_episode] |}; index := stored_index |}.

(** [stored_index] after [delete_episode] of [e1] in its namespace. *)
Definition deleted_index : Index :=
  match PineconeService.delete_episode P0 no_faults MyConfig stored_index "e1" "finance_101" with
  | Ok (_, idx) => idx
  | Raise _ => empty_index
  end.

End Scenario.

(** * Properties *)

Import EpisodeManager Scenario.

(** ** C1: stale chunks after an update *)

(** C1 (code bug).  [update_episode] deletes the old chunks in the
    namespace ["Finance 101"] (the raw expert name) while they live in
    ["finance_101"]; after a successful update from two chunks to one, the
    id [e1_chunk_1] is still in the expert's namespace. *)
Lemma update_leaves_stale_chunk :
  List.length (TextSplitter.split_text (PineconeService.full_content old_episode)) = 2 /\
  List.length (TextSplitter.split_text ("Content: " ++ new_content)) = 1 /\
  In "e1_chunk_1" (map v_id (records stored_index "finance_101")) /\
  exists st',
    update_episode P0 no_faults MyConfig stored_state "x1" "e1" update_data
      = Ok ((BodyOk, 200), st') /\
    In "e1_chunk_1" (map v_id (records (index st') "finance_101")).
Proof.
  split; [vm_compute; reflexivity|].
  split; [vm_compute; reflexivity|].
  split; [vm_compute; tauto|].
  eexists; split; [vm_compute; reflexivity|].
  vm_compute; tauto.
Qed.

(** ** C3: create reports success when the vectors are not stored *)

(** C3 (code bug).  When the row is created but [index.upsert] raises,
    [create_episode] still answers 201 with [success: True], and no chunk
    of the episode is in the vector store. *)
Lemma create_reports_success_when_store_fails :
  exists ep st',
    create_episode P0 upsert_faults fresh_state "e9" "x1" update_data
      = Ok ((BodyEpisode ep, 201), st') /\
    DatabaseService.get_episode_by_id (db st') "e9" = Some ep /\
    records (index st') "finance_101" = [].
Proof.
  do 2 eexists; split; [vm_compute; reflexivity|].
  split; vm_compute; reflexivity.
Qed.

(** ** C4: the namespace a mutating call addresses *)

(** C4 (code bug, the defect of C1).  In [update_episode] the
    delete-by-filter query is addressed to the raw expert name, not to the
    derived namespace where [store_episode_content] upserts. *)
Lemma update_addresses_raw_name :
  PineconeService.namespace_of (ex_name expert) = "finance_101" /\
  exists st',
    update_episode P0 no_faults MyConfig stored_state "x1" "e1" update_data
      = Ok ((BodyOk, 200), st') /\
    calls (index st') = [CallUpsert "finance_101" ["e1_chunk_0"]; CallQuery "Finance 101";
                         CallUpsert "finance_101" ["e1_chunk_0"; "e1_chunk_1"]].
Proof.
  split; [vm_compute; reflexivity|].
  eexists; split; vm_compute; reflexivity.
Qed.

(** ** C2: update is not atomic across the two stores *)

(** C2 (counterexample).  The vector upsert fails after the row was
    committed: the response is an error while the row already carries the
    new content. *)
Lemma update_not_atomic :
  exists st',
    update_episode P0 upsert_faults MyConfig stored_state "x1" "e1" update_data
      = Ok ((BodyError "Failed to store updated episode content in Pinecone", 500), st') /\
    option_map ep_content (DatabaseService.get_episode_by_id (db st') "e1") = Some new_content /\
    option_map ep_content (DatabaseService.get_episode_by_id (db stored_state) "e1")
      <> Some new_content.
Proof.
  eexists; split; [vm_compute; reflexivity|].
  split; vm_compute; [reflexivity | discriminate].
Qed.

Lemma db_update_none (F : Faults) (d : DatabaseService.Db) (eid t c : string) d' :
  DatabaseService.update_episode F d eid t c = (None, d') ->
  d' = d \/
  exists ep, DatabaseService.get_episode_by_id d eid = Some ep /\
    d' = DatabaseService.set_episode d
           {| ep_id := ep_id ep; ep_expert_id := ep_expert_id ep; ep_title := t; ep_content := c |}.
Proof.
  unfold DatabaseService.update_episode.
  destruct (DatabaseService.get_episode_by_id d eid) as [ep|];
    [destruct (f_commit F); [|destruct (f_refresh F)]|];
    intros H; inversion H; eauto.
Qed.

Lemma db_update_some (F : Faults) (d : DatabaseService.Db) (eid t c : string) ep' d' :
  DatabaseService.update_episode F d eid t c = (Some ep', d') ->
  exists ep, DatabaseService.get_episode_by_id d eid = Some ep /\
    ep' = {| ep_id := ep_id ep; ep_expert_id := ep_expert_id ep; ep_title := t; ep_content := c |} /\
    d' = DatabaseService.set_episode d ep'.
Proof.
  unfold DatabaseService.update_episode.
  destruct (DatabaseService.get_episode_by_id d eid) as [ep|]; [|discriminate].
  destruct (f_commit F); [discriminate|]. destruct (f_refresh F); [discriminate|].
  intros H; inversion H; subst; eauto.
Qed.

Lemma state_eta (st : State) : {| db := db st; index := index st |} = st.
Proof. destruct st; reflexivity. Qed.

(** C2 (amended).  [update_episode] commits the relational row first.
    When the input is rejected (400), neither store changes.  When the
    relational update returns nothing (500), the vectors are untouched and
    the row is either unchanged (the commit failed) or already holds the
    new title and content (the refresh after the commit failed).
    Otherwise the row holds the new title and content whatever happens
    next, and the response is 200 or a 500 naming the vector step (delete
    or store) that failed. *)
Theorem update_episode_relational_first :
  forall P F cfg st expert_id episode_id data r st',
  update_episode P F cfg st expert_id episode_id data = Ok (r, st') ->
  update_outcome st episode_id data r st'.
Proof.
  intros P F cfg st expert_id episode_id data r st' H.
  unfold update_episode in H; unfold update_outcome.
  destruct (_validate_data _ data) as [is_valid error_message].
  destruct is_valid, (DatabaseService.get_expert_by_id (db st) expert_id) as [ex|];
    try (inversion H; subst; left; auto; fail).
  destruct (DatabaseService.update_episode F (db st) episode_id _ _) as [[ep'|] db1] eqn:Hu.
  - apply db_update_some in Hu as (ep & Hget & -> & ->).
    right; right. exists ep. split; [exact Hget|].
    destruct (PineconeService.delete_episode P F cfg _ _ _) as [[is_deleted idx1]|e];
      cbn [py_bind] in H; [|discriminate].
    destruct is_deleted; cbn [negb] in H.
    + match type of H with
      | context [PineconeService.store_episode_content ?a ?b ?c ?d ?e] =>
          destruct (PineconeService.store_episode_content a b c d e) as [[is_stored idx2]|e']
      end; cbn [py_bind] in H; [|discriminate].
      destruct is_stored; cbn [negb] in H; inversion H; subst; simpl; auto.
    + inversion H; subst; simpl; auto.
  - inversion H; subst. right; left. split; [reflexivity|]. split; [reflexivity|].
    exact (db_update_none _ _ _ _ _ _ Hu).
Qed.

(** Witness of [update_episode_relational_first] on the failing upsert. *)
Lemma update_episode_relational_first_witness :
  exists r st',
    update_episode P0 upsert_faults MyConfig stored_state "x1" "e1" update_data = Ok (r, st') /\
    update_outcome stored_state "e1" update_data r st'.
Proof.
  do 2 eexists; split; [vm_eval_lhs; reflexivity|].
  apply (update_episode_relational_first P0 upsert_faults MyConfig stored_state "x1" "e1"
           update_data).
  vm_compute; reflexivity.
Defined.

(** ** Retrieval: [query_knowledge] *)

Lemma insert_ranked_in (mt : Metric) (m x : Match) (ms : list Match) :
  In x (insert_ranked mt m ms) <-> m = x \/ In x ms.
Proof.
  induction ms as [|m' rest IH]; simpl.
  - tauto.
  - destruct (ranks_before mt (m_score m') (m_score m)); simpl; rewrite ?IH; tauto.
Qed.

Lemma rank_in (mt : Metric) (x : Match) (ms : list Match) : In x (rank mt ms) <-> In x ms.
Proof.
  induction ms as [|m rest IH]; simpl.
  - tauto.
  - rewrite insert_ranked_in, IH. tauto.
Qed.

Lemma in_firstn_in {A} (n : nat) (l : list A) (x : A) : In x (firstn n l) -> In x l.
Proof.
  intros H. rewrite <- (firstn_skipn n l). apply in_or_app. left. exact H.
Qed.

Lemma query_result_metadata P idx ns qv k flt m :
  In m (query_result P idx ns qv k true flt) -> exists md, m_metadata m = Some md.
Proof.
  unfold query_result. intros Hin.
  apply in_firstn_in, rank_in, in_map_iff in Hin as (r & <- & _).
  simpl. eauto.
Qed.

Lemma format_matches_ok (ms : list Match) :
  (forall m, In m ms -> exists md, m_metadata m = Some md) ->
  exists cs, PineconeService.format_matches ms = Ok cs /\
    map (fun c => (PineconeService.rc_score c, Some (PineconeService.rc_metadata c))) cs
    = map (fun m => (m_score m, m_metadata m)) ms.
Proof.
  induction ms as [|m rest IH]; intros Hmd; simpl.
  - exists []. auto.
  - destruct (Hmd m (or_introl eq_refl)) as [md Hm].
    destruct IH as (cs & Hcs & Hmap); [intros x Hx; apply Hmd; right; exact Hx|].
    unfold PineconeService.format_match. rewrite Hm, Hcs. simpl.
    eexists; split; [reflexivity|]. simpl. rewrite Hmap. reflexivity.
Qed.

(** C5 (counterexample).  Matches scored 0.9, 0.6 and 0.3: all three
    come back, the 0.6 and 0.3 chunks included. *)
Lemma query_knowledge_keeps_low_scores :
  exists idx',
    PineconeService.query_knowledge P0 no_faults topk_config scored_index "q" "finance_101" true
      = Ok ([ {| PineconeService.rc_text := "high"; PineconeService.rc_score := 9 # 10;
                 PineconeService.rc_episode_title := "Intro"; PineconeService.rc_episode_id := "e1";
                 PineconeService.rc_metadata := v_metadata (vec "a" (9 # 10) "high") |};
              {| PineconeService.rc_text := "mid"; PineconeService.rc_score := 6 # 10;
                 PineconeService.rc_episode_title := "Intro"; PineconeService.rc_episode_id := "e1";
                 PineconeService.rc_metadata := v_metadata (vec "b" (6 # 10) "mid") |};
              {| PineconeService.rc_text := "low"; PineconeService.rc_score := 3 # 10;
                 PineconeService.rc_episode_title := "Intro"; PineconeService.rc_episode_id := "e1";
                 PineconeService.rc_metadata := v_metadata (vec "c" (3 # 10) "low") |} ], idx').
Proof.
  eexists. vm_eval_lhs. reflexivity.
Qed.

(** C5 (amended).  [query_knowledge] applies no score threshold: when
    [PINECONE_TOP_K] is configured and no call raises, it returns one
    entry per match of the vector query, in the same order, with the
    match's score and metadata. *)
Theorem query_knowledge_no_threshold :
  forall P F cfg idx query namespace k,
  PINECONE_TOP_K cfg = Some k ->
  f_index F = false -> f_embed F = false -> f_query F = false ->
  exists chunks idx',
    PineconeService.query_knowledge P F cfg idx query namespace true = Ok (chunks, idx') /\
    map (fun c => (PineconeService.rc_score c, Some (PineconeService.rc_metadata c))) chunks
    = map (fun m => (m_score m, m_metadata m))
          (query_result P idx namespace (embed P query) k true None).
Proof.
  intros P F cfg idx query namespace k Hk Hi He Hq.
  destruct (format_matches_ok (query_result P idx namespace (embed P query) k true None))
    as (cs & Hcs & Hmap).
  { intros m; apply query_result_metadata. }
  unfold PineconeService.query_knowledge, PineconeService.query_body,
    PineconeService.pc_Index, PineconeService.embed_query, PineconeService.config_top_k,
    Pinecone.query.
  rewrite Hi, He, Hk, Hq. simpl. rewrite Hcs. simpl.
  eexists; eexists; split; [reflexivity | exact Hmap].
Qed.

Lemma query_knowledge_no_threshold_witness :
  exists chunks idx',
    PineconeService.query_knowledge P0 no_faults topk_config scored_index "q" "finance_101" true
      = Ok (chunks, idx') /\
    map (fun c => (PineconeService.rc_score c, Some (PineconeService.rc_metadata c))) chunks
    = map (fun m => (m_score m, m_metadata m))
          (query_result P0 scored_index "finance_101" (embed P0 "q") 5 true None).
Proof.
  apply (query_knowledge_no_threshold P0 no_faults topk_config scored_index "q" "finance_101" 5);
    reflexivity.
Defined.

(** C6 (counterexample).  No match in the namespace: the result is the
    empty list, not a non-empty sentinel. *)
Lemma query_knowledge_empty_is_empty_list :
  exists idx',
    PineconeService.query_knowledge P0 no_faults topk_config scored_index "q" "other" true
      = Ok ([], idx').
Proof.
  eexists. vm_eval_lhs. reflexivity.
Qed.

(** C6 (amended).  When the vector query has no match (or a call
    raises), [query_knowledge] returns the empty list; no sentinel string
    is produced. *)
Theorem query_knowledge_empty_matches :
  forall P F cfg idx query namespace include_metadata,
  (forall k, PINECONE_TOP_K cfg = Some k ->
             query_result P idx namespace (embed P query) k include_metadata None = []) ->
  exists idx',
    PineconeService.query_knowledge P F cfg idx query namespace include_metadata = Ok ([], idx').
Proof.
  intros P F cfg idx query namespace include_metadata Hnone.
  unfold PineconeService.query_knowledge, PineconeService.query_body,
    PineconeService.pc_Index, PineconeService.embed_query, PineconeService.config_top_k,
    Pinecone.query.
  destruct (f_index F), (f_embed F); simpl; eauto.
  destruct (PINECONE_TOP_K cfg) as [k|] eqn:Hk; simpl; eauto.
  destruct (f_query F); simpl; eauto.
  rewrite (Hnone k eq_refl). simpl. eauto.
Qed.

Lemma query_knowledge_empty_matches_witness :
  exists idx',
    PineconeService.query_knowledge P0 no_faults topk_config scored_index "q" "other" true
      = Ok ([], idx').
Proof.
  apply query_knowledge_empty_matches.
  intros k Hk. vm_compute in Hk. injection Hk as <-. vm_compute. reflexivity.
Defined.

(** C9.  [query_knowledge] never lets an exception out, and when
    [pc.Index], the query embedding or the vector query raises it returns
    the empty list and leaves the index untouched. *)
Theorem query_knowledge_never_raises :
  forall P F cfg idx query namespace include_metadata,
  (exists r, PineconeService.query_knowledge P F cfg idx query namespace include_metadata = Ok r) /\
  (f_index F = true \/ f_embed F = true \/ f_query F = true ->
   PineconeService.query_knowledge P F cfg idx query namespace include_metadata = Ok ([], idx)).
Proof.
  intros P F cfg idx query namespace include_metadata.
  unfold PineconeService.query_knowledge.
  split.
  - destruct (PineconeService.query_body _ _ _ _ _ _ _); eauto.
  - intros Hf.
    unfold PineconeService.query_body, PineconeService.pc_Index,
      PineconeService.embed_query, PineconeService.config_top_k, Pinecone.query.
    destruct (f_index F), (f_embed F); simpl; try reflexivity.
    destruct (PINECONE_TOP_K cfg); simpl; try reflexivity.
    destruct (f_query F); simpl; [reflexivity|].
    destruct Hf as [H|[H|H]]; discriminate.
Qed.

Lemma query_knowledge_never_raises_witness :
  PineconeService.query_knowledge P0
    {| f_index := false; f_embed := true; f_query := false;
       f_upsert := false; f_delete := false; f_commit := false;
     f_refresh := false |}
    topk_config scored_index "q" "finance_101" true = Ok ([], scored_index).
Proof.
  apply query_knowledge_never_raises. right; left; reflexivity.
Defined.

(** ** Deleting an episode's vectors *)

Lemma lookup_set_same (sp : list (string * list Vector)) (ns : string) (vs : list Vector) :
  lookup_ns (set_ns sp ns vs) ns = vs.
Proof.
  induction sp as [|[n ws] rest IH]; simpl.
  - rewrite String.eqb_refl. reflexivity.
  - destruct (String.eqb n ns) eqn:E; simpl.
    + rewrite E. reflexivity.
    + rewrite E. exact IH.
Qed.

Lemma filter_all_true {A} (p : A -> bool) (l : list A) :
  (forall x, In x l -> p x = true) -> filter p l = l.
Proof.
  induction l as [|x l IH]; simpl; intros H; [reflexivity|].
  rewrite (H x (or_introl eq_refl)), IH; [reflexivity|].
  intros y Hy. apply H. right. exact Hy.
Qed.

Lemma insert_ranked_length (mt : Metric) (m : Match) (ms : list Match) :
  List.length (insert_ranked mt m ms) = S (List.length ms).
Proof.
  induction ms as [|m' rest IH]; simpl; [reflexivity|].
  destruct (ranks_before mt (m_score m') (m_score m)); simpl; rewrite ?IH; reflexivity.
Qed.

Lemma rank_length (mt : Metric) (ms : list Match) : List.length (rank mt ms) = List.length ms.
Proof.
  induction ms as [|m rest IH]; simpl; [reflexivity|].
  rewrite insert_ranked_length, IH. reflexivity.
Qed.

(** The vectors that survive a successful [delete_episode]: those whose
    id was not among the ids of the filtered zero-vector query. *)
Lemma delete_episode_records P F cfg idx episode_id namespace idx' :
  PineconeService.delete_episode P F cfg idx episode_id namespace = Ok (true, idx') ->
  records idx' namespace =
  filter (fun r => negb (existsb (String.eqb (v_id r))
                           (map m_id (query_result P idx namespace
                                        (repeat 0%Q (PINECONE_DIMENSION cfg)) 10000 true
                                        (Some episode_id)))))
         (records idx namespace).
Proof.
  unfold PineconeService.delete_episode, PineconeService.delete_body,
    PineconeService.pc_Index, Pinecone.query, index_delete.
  destruct (f_index F); [discriminate|]. destruct (f_query F); [discriminate|].
  cbn [py_bind].
  destruct (map m_id _) as [|id ids] eqn:Hids.
  - intros H; inversion H; subst. unfold records; simpl.
    symmetry. apply filter_all_true. reflexivity.
  - destruct (f_delete F); [discriminate|].
    intros H; inversion H; subst. unfold records at 1; simpl.
    rewrite lookup_set_same. reflexivity.
Qed.

Lemma delete_episode_no_faults P F cfg idx episode_id namespace :
  f_index F = false -> f_query F = false -> f_delete F = false ->
  exists idx', PineconeService.delete_episode P F cfg idx episode_id namespace = Ok (true, idx').
Proof.
  intros Hi Hq Hd.
  unfold PineconeService.delete_episode, PineconeService.delete_body,
    PineconeService.pc_Index, Pinecone.query, index_delete.
  rewrite Hi, Hq. cbn [py_bind].
  destruct (map m_id _); [eauto|]. rewrite Hd. eauto.
Qed.


Lemma in_ids_of_match P idx ns qv flt r :
  List.length (filter (passes flt) (records idx ns)) <= 10000 ->
  In r (filter (passes flt) (records idx ns)) ->
  In (v_id r) (map m_id (query_result P idx ns qv 10000 true flt)).
Proof.
  intros Hlen Hin. unfold query_result.
  rewrite firstn_all2 by (rewrite rank_length, length_map; exact Hlen).
  apply in_map_iff.
  exists {| m_id := v_id r; m_score := similarity P qv (v_values r);
            m_metadata := Some (v_metadata r) |}.
  split; [reflexivity|].
  apply rank_in, in_map_iff. exists r. auto.
Qed.




Lemma to_uint_not_nil (n : nat) : Nat.to_uint n <> Decimal.Nil.
Proof.
  intros H.
  pose proof (DecimalNat.Unsigned.of_to n) as Hn. rewrite H in Hn. simpl in Hn.
  subst n. discriminate H.
Qed.

Lemma str_nat_inj (a b : nat) : str_nat a = str_nat b -> a = b.
Proof.
  unfold str_nat. intros H.
  apply (f_equal NilZero.uint_of_string) in H.
  rewrite !NilZero.usu in H by apply to_uint_not_nil.
  injection H as H. apply DecimalNat.Unsigned.to_uint_inj. exact H.
Qed.

Lemma build_vectors_ids (eid title : string) (i : nat) (cs : list string) (es : list (list Q)) :
  map v_id (PineconeService.build_vectors eid title i cs es)
  = map (fun j => eid ++ "_chunk_" ++ str_nat j) (seq i (Nat.min (List.length cs) (List.length es))).
Proof.
  revert i es. induction cs as [|c cs IH]; intros i es; [reflexivity|].
  destruct es as [|e es]; [reflexivity|]. simpl. rewrite IH. reflexivity.
Qed.

Lemma build_vectors_pass (eid title : string) (i : nat) (cs : list string) (es : list (list Q)) :
  filter (passes (Some eid)) (PineconeService.build_vectors eid title i cs es)
  = PineconeService.build_vectors eid title i cs es.
Proof.
  apply filter_all_true. revert i es.
  induction cs as [|c cs IH]; intros i es x Hx; [destruct Hx|].
  destruct es as [|e es]; [destruct Hx|].
  destruct Hx as [<-|Hx]; [apply String.eqb_refl | exact (IH _ _ _ Hx)].
Qed.

Lemma build_vectors_length (eid title : string) (i : nat) (cs : list string) (es : list (list Q)) :
  List.length (PineconeService.build_vectors eid title i cs es)
  = Nat.min (List.length cs) (List.length es).
Proof.
  revert i es. induction cs as [|c cs IH]; intros i es; [reflexivity|].
  destruct es as [|e es]; [reflexivity|]. simpl. rewrite IH. reflexivity.
Qed.

Lemma chunk_id_inj (eid : string) (a b : nat) :
  eid ++ "_chunk_" ++ str_nat a = eid ++ "_chunk_" ++ str_nat b -> a = b.
Proof.
  induction eid as [|c eid IH]; simpl; intros H.
  - injection H as H. apply str_nat_inj. exact H.
  - injection H as H. apply IH. exact H.
Qed.


(** ** Storing an episode *)

(** A successful [store_episode_content] is one upsert of the vectors built
    from the chunks of [full_content]. *)
Lemma store_episode_content_success P F idx ep name idx' :
  PineconeService.store_episode_content P F idx ep name = Ok (true, idx') ->
  let chunks := TextSplitter.split_text (PineconeService.full_content ep) in
  idx' = upsert idx (PineconeService.namespace_of name)
           (PineconeService.build_vectors (ep_id ep) (ep_title ep) 0 chunks
              (map (embed P) chunks)).
Proof.
  unfold PineconeService.store_episode_content, PineconeService.store_body.
  unfold PineconeService.pc_Index, PineconeService.embed_documents, index_upsert.
  destruct (f_index F), (f_embed F), (f_upsert F); cbn [py_bind];
    intros H; try discriminate; injection H as <-; reflexivity.
Qed.

Lemma build_vectors_length' eid t : forall cs es i,
  List.length es = List.length cs ->
  List.length (PineconeService.build_vectors eid t i cs es) = List.length cs.
Proof.
  induction cs as [|c cs IH]; intros [|e es] i H; simpl in *; try discriminate; auto.
Qed.

Lemma build_vectors_map_id eid t : forall cs es i,
  List.length es = List.length cs ->
  map v_id (PineconeService.build_vectors eid t i cs es)
  = map (fun j => eid ++ "_chunk_" ++ str_nat j) (seq i (List.length cs)).
Proof.
  induction cs as [|c cs IH]; intros [|e es] i H; simpl in *; try discriminate; auto.
  f_equal. apply IH. lia.
Qed.

Lemma build_vectors_nth eid t : forall cs es i j c,
  List.length es = List.length cs ->
  nth_error cs j = Some c ->
  exists v, nth_error (PineconeService.build_vectors eid t i cs es) j = Some v /\
    v_id v = eid ++ "_chunk_" ++ str_nat (i + j) /\
    v_metadata v = {| md_episode_id := eid; md_episode_title := t;
                      md_chunk_index := i + j; md_text := c |}.
Proof.
  induction cs as [|c0 cs IH]; intros [|e es] i j c Hlen Hj; simpl in *; try discriminate.
  - destruct j; discriminate.
  - destruct j as [|j]; simpl in Hj.
    + injection Hj as <-. eexists; split; [reflexivity|]. rewrite Nat.add_0_r. split; reflexivity.
    + destruct (IH es (S i) j c) as (v & Hv & Hid & Hmd); [lia|exact Hj|].
      exists v. simpl. rewrite Hv, Hid, Hmd. rewrite <- plus_n_Sm. simpl. auto.
Qed.

(** C8.  When [store_episode_content] returns [True], it has upserted into
    the namespace derived from the expert name exactly one vector per chunk
    of the episode's text: the ids are [{episode_id}_chunk_{i}] for
    [i = 0 .. k-1], and the vector of chunk [i] carries the episode id, the
    episode title, [chunk_index = i] and the chunk's text. *)
Theorem store_episode_content_vectors :
  forall P F idx ep name idx',
  PineconeService.store_episode_content P F idx ep name = Ok (true, idx') ->
  let chunks := TextSplitter.split_text (PineconeService.full_content ep) in
  exists vectors,
    idx' = upsert idx (PineconeService.namespace_of name) vectors /\
    List.length vectors = List.length chunks /\
    map v_id vectors
      = map (fun i => ep_id ep ++ "_chunk_" ++ str_nat i) (seq 0 (List.length chunks)) /\
    forall i chunk, nth_error chunks i = Some chunk ->
      exists v, nth_error vectors i = Some v /\
        v_id v = ep_id ep ++ "_chunk_" ++ str_nat i /\
        md_episode_id (v_metadata v) = ep_id ep /\
        md_episode_title (v_metadata v) = ep_title ep /\
        md_chunk_index (v_metadata v) = i /\
        md_text (v_metadata v) = chunk.
Proof.
  intros P F idx ep name idx' H chunks.
  pose proof (store_episode_content_success P F idx ep name idx' H) as Hidx.
  cbv zeta in Hidx. fold chunks in Hidx.
  assert (Hl : List.length (map (embed P) chunks) = List.length chunks) by apply length_map.
  eexists. split; [exact Hidx|]. split; [|split].
  - apply build_vectors_length'. exact Hl.
  - apply build_vectors_map_id. exact Hl.
  - intros i chunk Hi.
    destruct (build_vectors_nth (ep_id ep) (ep_title ep) chunks (map (embed P) chunks) 0 i chunk Hl Hi)
      as (v & Hv & Hid & Hmd).
    exists v. rewrite Hmd. simpl in *. auto 6.
Qed.

(** A witness for C8: the two-chunk episode [e1] stored for "Finance 101". *)
Lemma store_episode_content_vectors_witness :
  exists idx',
    PineconeService.store_episode_content P0 no_faults empty_index old_episode "Finance 101"
      = Ok (true, idx') /\
    exists vectors,
      idx' = upsert empty_index (PineconeService.namespace_of "Finance 101") vectors /\
      List.length vectors = 2.
Proof.
  destruct (PineconeService.store_episode_content P0 no_faults empty_index old_episode "Finance 101")
    as [[b idx']|e] eqn:E; pose proof E as E'; vm_compute in E'; [|discriminate].
  injection E' as <- _.
  exists idx'. split; [reflexivity|].
  destruct (store_episode_content_vectors P0 no_faults empty_index old_episode "Finance 101" idx' E)
    as (vectors & Hidx & Hlen & _ & _).
  exists vectors. split; [exact Hidx|]. rewrite Hlen. vm_compute. reflexivity.
Defined.

(** ** The first chunk of a stored episode *)

Lemma append_empty_r (s : string) : s ++ "" = s.
Proof. induction s as [|c s IH]; simpl; [reflexivity|now rewrite IH]. Qed.

Lemma string_app_assoc (a b c : string) : (a ++ b) ++ c = a ++ (b ++ c).
Proof. induction a as [|x a IH]; simpl; [reflexivity|now rewrite IH]. Qed.

Lemma prefix_nil (s : string) : String.prefix "" s = true.
Proof. destruct s; reflexivity. Qed.

Lemma prefix_app (p x y : string) : String.prefix p x = true -> String.prefix p (x ++ y) = true.
Proof.
  revert x. induction p as [|a p IH]; intros [|b x] H; simpl in *; try easy;
    try apply prefix_nil.
  destruct (ascii_dec a b); [now apply IH|discriminate].
Qed.

Lemma prefix_self_app (p y : string) : String.prefix p (p ++ y) = true.
Proof.
  induction p as [|a p IH]; simpl; [destruct y; reflexivity|].
  destruct (ascii_dec a a); [exact IH|congruence].
Qed.

Lemma prefix_rstrip (p x : string) :
  no_space p = true -> String.prefix p x = true -> String.prefix p (rstrip x) = true.
Proof.
  revert x. induction p as [|a p IH]; intros [|b x] Hns H; simpl in *; try easy;
    try apply prefix_nil.
  destruct (ascii_dec a b) as [<-|]; [|discriminate].
  apply andb_prop in Hns as [Ha Hns]. apply negb_true_iff in Ha.
  rewrite Ha, andb_false_r. simpl.
  destruct (ascii_dec a a); [now apply IH|congruence].
Qed.

Lemma prefix_cons_inv (a b : ascii) (p x : string) :
  String.prefix (String a p) (String b x) = true -> a = b /\ String.prefix p x = true.
Proof. cbn [String.prefix]. destruct (ascii_dec a b); [auto|discriminate]. Qed.

Lemma join_docs_content (d : string) (ds : list string) :
  P_content d -> exists j, TextSplitter.join_docs (d :: ds) "" = Some j /\ P_content j.
Proof.
  intros Hd. unfold TextSplitter.join_docs.
  assert (Hc : P_content (String.concat "" (d :: ds))).
  { destruct ds; [exact Hd|]. apply prefix_app. exact Hd. }
  assert (Hs : P_content (strip (String.concat "" (d :: ds)))).
  { unfold strip. remember (String.concat "" (d :: ds)) as x. clear Heqx.
    destruct x as [|c x]; [discriminate|].
    assert (c = "C"%char) as ->.
    { unfold P_content in Hc. symmetry. exact (proj1 (prefix_cons_inv _ _ _ _ Hc)). }
    simpl lstrip. apply prefix_rstrip; [reflexivity|exact Hc]. }
  destruct (String.eqb (strip (String.concat "" (d :: ds))) "") eqn:E.
  - apply String.eqb_eq in E. rewrite E in Hs. discriminate.
  - eexists; split; [reflexivity|exact Hs].
Qed.

Lemma rev_opt_cons_head {A} (o : option A) (l : list A) j js :
  rev l = j :: js -> exists js', rev (TextSplitter.opt_cons o l) = j :: js'.
Proof.
  intros H. destruct o; simpl; [|eauto]. rewrite H. eexists. reflexivity.
Qed.

Lemma rev_nil_inv {A} (l : list A) : rev l = [] -> l = [].
Proof.
  destruct l as [|x l]; simpl; [auto|]. intros H.
  apply (f_equal (@List.length A)) in H. rewrite length_app in H. simpl in H. lia.
Qed.

Lemma merge_go_head (d : string) : P_content d ->
  forall splits docs_rev current total,
  merge_inv d docs_rev current ->
  exists j rest, TextSplitter.merge_go "" splits docs_rev current total = j :: rest /\ P_content j.
Proof.
  intros Hd. induction splits as [|d' splits IH]; intros docs_rev current total Hinv.
  - simpl. unfold merge_inv in Hinv.
    destruct (rev docs_rev) as [|j js] eqn:Er.
    + apply rev_nil_inv in Er. subst docs_rev. destruct Hinv as [cs ->].
      destruct (join_docs_content d cs Hd) as (j & Hj & Pj). rewrite Hj. simpl.
      eauto.
    + destruct (rev_opt_cons_head (TextSplitter.join_docs current "") docs_rev j js Er)
        as [js' ->]. eauto.
  - cbn [TextSplitter.merge_go].
    destruct (TextSplitter.chunk_size <? _).
    + destruct current as [|c cs].
      * apply IH. unfold merge_inv in *.
        destruct (rev docs_rev); [destruct Hinv; discriminate|exact Hinv].
      * destruct (TextSplitter.pop_front _ _ _ _) as [cur1 tot1]. apply IH.
        unfold merge_inv in *. destruct (rev docs_rev) as [|j js] eqn:Er.
        -- apply rev_nil_inv in Er. subst docs_rev. destruct Hinv as [cs' Hc].
           injection Hc as -> ->.
           destruct (join_docs_content d cs' Hd) as (j & Hj & Pj). rewrite Hj. exact Pj.
        -- destruct (rev_opt_cons_head (TextSplitter.join_docs (c :: cs) "") docs_rev j js Er)
             as [js' ->]. exact Hinv.
    + apply IH. unfold merge_inv in *. destruct (rev docs_rev); [|exact Hinv].
      destruct Hinv as [cs ->]. eexists. reflexivity.
Qed.

Lemma merge_splits_head (d : string) (ds : list string) :
  P_content d ->
  exists j rest, TextSplitter.merge_splits (d :: ds) "" = j :: rest /\ P_content j.
Proof.
  intros Hd. unfold TextSplitter.merge_splits. cbn [TextSplitter.merge_go].
  destruct (TextSplitter.chunk_size <? _); apply (merge_go_head d Hd);
    unfold merge_inv; simpl; eauto.
Qed.

Lemma process_splits_good rec ns : forall splits good_rev g gs,
  rev good_rev = g :: gs -> P_content g ->
  exists j rest, TextSplitter.process_splits rec ns "" splits good_rev = j :: rest /\ P_content j.
Proof.
  induction splits as [|s splits IH]; intros good_rev g gs Hr Hg;
    cbn [TextSplitter.process_splits].
  - destruct good_rev as [|x xs]; [discriminate|].
    rewrite Hr. apply merge_splits_head. exact Hg.
  - destruct (String.length s <? TextSplitter.chunk_size).
    + apply (IH _ g (gs ++ [s])%list); [simpl; rewrite Hr; reflexivity|exact Hg].
    + destruct good_rev as [|x xs]; [discriminate|].
      rewrite Hr. destruct (merge_splits_head g gs Hg) as (j & rest & -> & Pj).
      simpl. eauto.
Qed.

Lemma process_splits_start rec ns (s0 : string) (rest : list string) :
  P_content s0 ->
  (TextSplitter.chunk_size <= String.length s0 -> ns <> [] ->
     exists j r, rec s0 = j :: r /\ P_content j) ->
  exists j r, TextSplitter.process_splits rec ns "" (s0 :: rest) [] = j :: r /\ P_content j.
Proof.
  intros H0 Hrec. simpl.
  destruct (String.length s0 <? TextSplitter.chunk_size) eqn:E.
  - apply (process_splits_good rec ns rest [s0] s0 []); [reflexivity|exact H0].
  - apply Nat.ltb_ge in E. simpl. destruct ns as [|n ns].
    + simpl. eauto.
    + destruct (Hrec E ltac:(discriminate)) as (j & r & -> & Pj). simpl. eauto.
Qed.

Lemma split_go_skip (a : ascii) (sep' : string) : forall p fuel cur r,
  no_char a p = true -> String.length p < fuel ->
  split_go (String a sep') fuel cur (p ++ r)
  = split_go (String a sep') (fuel - String.length p) (cur ++ p) r.
Proof.
  induction p as [|c p IH]; intros fuel cur r Hnc Hf; simpl in *.
  - rewrite Nat.sub_0_r, append_empty_r. reflexivity.
  - destruct fuel as [|fuel]; [lia|]. simpl.
    apply andb_prop in Hnc as [Hc Hnc]. apply negb_true_iff, Ascii.eqb_neq in Hc.
    destruct (ascii_dec a c) as [->|_]; [congruence|].
    rewrite IH by (auto; lia). rewrite string_app_assoc. reflexivity.
Qed.

Lemma split_go_head (sep : string) : forall fuel cur s,
  exists q rest, split_go sep fuel cur s = (cur ++ q) :: rest.
Proof.
  induction fuel as [|fuel IH]; intros cur s; simpl.
  - eauto.
  - destruct s as [|c s].
    + exists "", []. now rewrite append_empty_r.
    + destruct (String.prefix sep (String c s)).
      * exists "". rewrite append_empty_r. eauto.
      * destruct (IH (cur ++ String c "") s) as (q & rest & ->).
        rewrite string_app_assoc. eauto.
Qed.

Lemma content_no_char (a : ascii) :
  a = ascii_of_nat 10 \/ a = "."%char -> no_char a "Content: " = true.
Proof. intros [-> | ->]; reflexivity. Qed.

Lemma string_length_app (a b : string) :
  String.length (a ++ b) = String.length a + String.length b.
Proof. induction a as [|c a IH]; simpl; [reflexivity|now rewrite IH]. Qed.

Lemma contains_prefix (sep x : string) : String.prefix sep x = true -> contains sep x = true.
Proof. destruct x; simpl; intros ->; reflexivity. Qed.

Lemma contains_app (sep p x : string) : contains sep x = true -> contains sep (p ++ x) = true.
Proof.
  induction p as [|c p IH]; simpl; [auto|]. intros H. rewrite IH by exact H.
  apply orb_true_r.
Qed.

Lemma content_space (r : string) : "Content: " ++ r = "Content:" ++ (" " ++ r).
Proof. reflexivity. Qed.

Lemma contains_space_content (r : string) : contains " " ("Content: " ++ r) = true.
Proof.
  rewrite content_space. apply contains_app, contains_prefix, prefix_self_app.
Qed.

Lemma choose_go_cons (t s : string) (rest : list string) :
  s <> "" ->
  TextSplitter.choose_go t (s :: rest) = if contains s t then Some (s, rest) else TextSplitter.choose_go t rest.
Proof. intros Hs. simpl. destruct (String.eqb_spec s ""); [contradiction|reflexivity]. Qed.

Lemma skipn_separators (k : nat) : k <= 3 ->
  skipn k TextSplitter.separators
  = nth k TextSplitter.separators "" :: skipn (S k) TextSplitter.separators /\
  nth k TextSplitter.separators "" <> "".
Proof. intros Hk. destruct k as [|[|[|[|k]]]]; try lia; split; try reflexivity; discriminate. Qed.

Lemma choose_go_content (r : string) : forall n k, k + n = 3 ->
  exists k', k <= k' <= 3 /\
    TextSplitter.choose_go ("Content: " ++ r) (skipn k TextSplitter.separators)
    = Some (nth k' TextSplitter.separators "", skipn (S k') TextSplitter.separators).
Proof.
  induction n as [|n IH]; intros k Hk.
  - rewrite Nat.add_0_r in Hk. subst k. exists 3. split; [lia|].
    destruct (skipn_separators 3 (le_n 3)) as [-> Hne].
    rewrite (choose_go_cons _ _ _ Hne).
    change (nth 3 TextSplitter.separators "") with " ".
    rewrite contains_space_content. reflexivity.
  - destruct (skipn_separators k ltac:(lia)) as [-> Hne].
    rewrite (choose_go_cons _ _ _ Hne).
    destruct (contains (nth k TextSplitter.separators "") ("Content: " ++ r)).
    + exists k. split; [lia|reflexivity].
    + destruct (IH (S k) ltac:(lia)) as (k' & Hk' & Hc). exists k'. split; [lia|exact Hc].
Qed.

Lemma choose_content (k : nat) (r : string) : k <= 3 ->
  exists k', k <= k' <= 3 /\
    TextSplitter.choose_separator ("Content: " ++ r) (skipn k TextSplitter.separators)
    = (nth k' TextSplitter.separators "", skipn (S k') TextSplitter.separators).
Proof.
  intros Hk. destruct (choose_go_content r (3 - k) k ltac:(lia)) as (k' & Hk' & Hc).
  exists k'. split; [exact Hk'|]. unfold TextSplitter.choose_separator. now rewrite Hc.
Qed.

Lemma regex_head_char (a : ascii) (sep' r : string) :
  a = ascii_of_nat 10 \/ a = "."%char ->
  exists q rest,
    TextSplitter.split_text_with_regex ("Content: " ++ r) (String a sep')
    = ("Content: " ++ q) :: rest.
Proof.
  intros Ha. unfold TextSplitter.split_text_with_regex, split_on.
  cbn [String.eqb]. rewrite split_go_skip.
  2: { apply content_no_char. exact Ha. }
  2: { rewrite string_length_app. simpl. lia. }
  destruct (split_go_head (String a sep') (S (String.length ("Content: " ++ r)) - String.length "Content: ")
              ("" ++ "Content: ") r) as (q & rest & ->).
  simpl. eauto.
Qed.

Lemma regex_head_space (r : string) :
  exists rest, TextSplitter.split_text_with_regex ("Content: " ++ r) " " = "Content:" :: rest.
Proof.
  unfold TextSplitter.split_text_with_regex, split_on.
  cbn [String.eqb]. rewrite content_space, split_go_skip by (reflexivity || (rewrite string_length_app; simpl; lia)).
  rewrite string_length_app. simpl String.length. simpl minus.
  remember (String.length (" " ++ r)) as n. cbn [split_go].
  rewrite prefix_self_app. simpl. eauto.
Qed.

Lemma regex_head_content (k : nat) (r : string) : k <= 2 ->
  exists q rest,
    TextSplitter.split_text_with_regex ("Content: " ++ r) (nth k TextSplitter.separators "")
    = ("Content: " ++ q) :: rest.
Proof.
  intros Hk. destruct k as [|[|[|k]]]; try lia.
  - change (nth 0 TextSplitter.separators "")
      with (String (ascii_of_nat 10) (String (ascii_of_nat 10) "")).
    apply regex_head_char. auto.
  - change (nth 1 TextSplitter.separators "") with (String (ascii_of_nat 10) "").
    apply regex_head_char. auto.
  - change (nth 2 TextSplitter.separators "") with (String "." " ").
    apply regex_head_char. auto.
Qed.

Lemma P_content_content (q : string) : P_content ("Content: " ++ q).
Proof. unfold P_content. rewrite content_space. apply prefix_self_app. Qed.

Lemma split_text_go_content : forall fuel k r, k <= 3 -> 5 <= fuel + k ->
  exists j rest,
    TextSplitter.split_text_go fuel ("Content: " ++ r) (skipn k TextSplitter.separators) = j :: rest /\
    P_content j.
Proof.
  induction fuel as [|fuel IH]; intros k r Hk Hf; [lia|].
  cbn [TextSplitter.split_text_go].
  destruct (choose_content k r Hk) as (k' & Hk' & ->).
  destruct (Nat.eq_dec k' 3) as [->|Hk3].
  - change (nth 3 TextSplitter.separators "") with " ".
    destruct (regex_head_space r) as [rest ->].
    apply process_splits_start; [reflexivity|].
    intros Hl. unfold TextSplitter.chunk_size in Hl. simpl in Hl. lia.
  - destruct (regex_head_content k' r ltac:(lia)) as (q & rest & ->).
    apply process_splits_start; [apply P_content_content|].
    intros _ _. apply IH; lia.
Qed.

Lemma split_text_content (c : string) :
  exists j rest, TextSplitter.split_text ("Content: " ++ c) = j :: rest /\ P_content j.
Proof. exact (split_text_go_content 5 0 c ltac:(lia) ltac:(lia)). Qed.

Lemma build_vectors_texts eid t : forall cs es i,
  List.length es = List.length cs ->
  map (fun v => md_text (v_metadata v)) (PineconeService.build_vectors eid t i cs es) = cs.
Proof.
  induction cs as [|c cs IH]; intros [|e es] i H; simpl in *; try discriminate; auto.
  f_equal. apply IH. lia.
Qed.

(** C10.  [store_episode_content] chunks ["Content: " + episode.content],
    not the raw content: when it returns [True], the texts of the upserted
    vectors are, in order, the chunks of that string, there is at least one,
    and the first one begins with "Content:" (the space after the colon may
    be moved to the next chunk). *)
Theorem store_episode_content_chunks_prefixed :
  forall P F idx ep name idx',
  PineconeService.store_episode_content P F idx ep name = Ok (true, idx') ->
  exists vectors v rest,
    idx' = upsert idx (PineconeService.namespace_of name) vectors /\
    map (fun v => md_text (v_metadata v)) vectors
      = TextSplitter.split_text ("Content: " ++ ep_content ep) /\
    vectors = v :: rest /\
    String.prefix "Content:" (md_text (v_metadata v)) = true.
Proof.
  intros P F idx ep name idx' H.
  pose proof (store_episode_content_success P F idx ep name idx' H) as Hidx.
  cbv zeta in Hidx. unfold PineconeService.full_content in Hidx.
  set (chunks := TextSplitter.split_text ("Content: " ++ ep_content ep)) in *.
  assert (Hl : List.length (map (embed P) chunks) = List.length chunks) by apply length_map.
  pose proof (build_vectors_texts (ep_id ep) (ep_title ep) chunks (map (embed P) chunks) 0 Hl) as Ht.
  destruct (split_text_content (ep_content ep)) as (j & js & Hc & Pj). fold chunks in Hc.
  destruct (PineconeService.build_vectors (ep_id ep) (ep_title ep) 0 chunks (map (embed P) chunks))
    as [|v rest] eqn:Hv.
  - rewrite Hc in Ht. discriminate.
  - exists (v :: rest), v, rest. split; [exact Hidx|]. split; [exact Ht|]. split; [reflexivity|].
    rewrite Hc in Ht. simpl in Ht. injection Ht as -> _. exact Pj.
Qed.

(** A witness for C10: the episode [e2] whose content is one 1000-letter
    word. *)
Lemma store_episode_content_chunks_prefixed_witness :
  exists idx',
    PineconeService.store_episode_content P0 no_faults empty_index long_word_episode "Finance 101"
      = Ok (true, idx') /\
    exists vectors v rest,
      idx' = upsert empty_index (PineconeService.namespace_of "Finance 101") vectors /\
      vectors = v :: rest /\
      String.prefix "Content:" (md_text (v_metadata v)) = true.
Proof.
  destruct (PineconeService.store_episode_content P0 no_faults empty_index long_word_episode "Finance 101")
    as [[b idx']|e] eqn:E; pose proof E as E'; vm_compute in E'; [|discriminate].
  injection E' as <- _.
  exists idx'. split; [reflexivity|].
  destruct (store_episode_content_chunks_prefixed P0 no_faults empty_index long_word_episode
              "Finance 101" idx' E) as (vectors & v & rest & Hidx & _ & Hv & Hp).
  exists vectors, v, rest. auto.
Defined.

(** C10 (counterexample).  For the content made of one 1000-letter word the
    first indexed chunk is "Content:", which does not begin with
    "Content: ". *)
Lemma first_chunk_loses_space :
  exists idx' v rest,
    PineconeService.store_episode_content P0 no_faults empty_index long_word_episode "Finance 101"
      = Ok (true, idx') /\
    records idx' "finance_101" = v :: rest /\
    md_text (v_metadata v) = "Content:" /\
    String.prefix "Content: " (md_text (v_metadata v)) = false.
Proof.
  do 3 eexists. split; [vm_eval_lhs; reflexivity|].
  split; [vm_eval_lhs; reflexivity|].
  split; reflexivity.
Qed.

(** ** Rows of the relational store *)

Lemma find_app {A} (p : A -> bool) (l1 l2 : list A) :
  find p (l1 ++ l2) = match find p l1 with Some x => Some x | None => find p l2 end.
Proof. induction l1 as [|x l1 IH]; simpl; [reflexivity|]. destruct (p x); auto. Qed.

Lemma find_episode_id (l : list Episode) (i : string) (e : Episode) :
  find (fun x => String.eqb (ep_id x) i) l = Some e -> ep_id e = i.
Proof. intros H. apply find_some in H as [_ H]. apply String.eqb_eq, H. Qed.

Lemma find_set_same (l : list Episode) (e' : Episode) (e : Episode) :
  find (fun x => String.eqb (ep_id x) (ep_id e')) l = Some e ->
  find (fun x => String.eqb (ep_id x) (ep_id e'))
    (map (fun x => if String.eqb (ep_id x) (ep_id e') then e' else x) l) = Some e'.
Proof.
  induction l as [|x l IH]; simpl; [discriminate|].
  destruct (String.eqb (ep_id x) (ep_id e')) eqn:E.
  - intros _. rewrite String.eqb_refl. reflexivity.
  - rewrite E. exact IH.
Qed.

Lemma find_set_other (l : list Episode) (e' : Episode) (i : string) :
  i <> ep_id e' ->
  find (fun x => String.eqb (ep_id x) i)
    (map (fun x => if String.eqb (ep_id x) (ep_id e') then e' else x) l)
  = find (fun x => String.eqb (ep_id x) i) l.
Proof.
  intros Hi. induction l as [|x l IH]; simpl; [reflexivity|].
  destruct (String.eqb (ep_id x) (ep_id e')) eqn:E.
  - apply String.eqb_eq in E.
    destruct (String.eqb_spec (ep_id e') i) as [H|_]; [congruence|].
    destruct (String.eqb_spec (ep_id x) i) as [H|_]; [congruence|]. exact IH.
  - destruct (String.eqb (ep_id x) i); [reflexivity|exact IH].
Qed.

Lemma find_filter_gone (l : list Episode) (i : string) :
  find (fun x => String.eqb (ep_id x) i) (filter (fun x => negb (String.eqb (ep_id x) i)) l) = None.
Proof.
  induction l as [|x l IH]; simpl; [reflexivity|].
  destruct (String.eqb (ep_id x) i) eqn:E; simpl; [exact IH|]. rewrite E. exact IH.
Qed.

Lemma find_filter_other (l : list Episode) (i j : string) :
  j <> i ->
  find (fun x => String.eqb (ep_id x) j) (filter (fun x => negb (String.eqb (ep_id x) i)) l)
  = find (fun x => String.eqb (ep_id x) j) l.
Proof.
  intros Hji. induction l as [|x l IH]; simpl; [reflexivity|].
  destruct (String.eqb (ep_id x) i) eqn:E; simpl.
  - apply String.eqb_eq in E.
    destruct (String.eqb_spec (ep_id x) j) as [H|_]; [congruence|exact IH].
  - destruct (String.eqb (ep_id x) j); [reflexivity|exact IH].
Qed.

(** [DatabaseService.create_episode] followed by [get_episode_by_id]: the
    new row is found under its fresh id, with the given fields, and every
    other id finds what it found before. *)
Theorem db_create_then_get F d new_id expert_id title content ep d' :
  DatabaseService.create_episode F d new_id expert_id title content = (Some ep, d') ->
  DatabaseService.get_episode_by_id d new_id = None ->
  ep = {| ep_id := new_id; ep_expert_id := expert_id; ep_title := title; ep_content := content |} /\
  DatabaseService.get_episode_by_id d' new_id = Some ep /\
  (forall id, id <> new_id ->
     DatabaseService.get_episode_by_id d' id = DatabaseService.get_episode_by_id d id) /\
  DatabaseService.experts d' = DatabaseService.experts d.
Proof.
  unfold DatabaseService.create_episode, DatabaseService.get_episode_by_id.
  destruct (f_commit F); [discriminate|]. destruct (f_refresh F); [discriminate|]. intros H Hfresh. injection H as <- <-.
  simpl. rewrite find_app, Hfresh. simpl. rewrite String.eqb_refl.
  split; [reflexivity|]. split; [reflexivity|]. split; [|reflexivity].
  intros id Hid. rewrite find_app.
  destruct (find (fun e => String.eqb (ep_id e) id) (DatabaseService.episodes d));
    [reflexivity|]. simpl.
  destruct (String.eqb_spec new_id id); [congruence|reflexivity].
Qed.

Lemma db_create_then_get_witness :
  DatabaseService.get_episode_by_id
    (snd (DatabaseService.create_episode no_faults (db fresh_state) "e9" "x1" "T" "C")) "e9"
  = Some {| ep_id := "e9"; ep_expert_id := "x1"; ep_title := "T"; ep_content := "C" |}.
Proof.
  destruct (db_create_then_get no_faults (db fresh_state) "e9" "x1" "T" "C"
              {| ep_id := "e9"; ep_expert_id := "x1"; ep_title := "T"; ep_content := "C" |}
              (snd (DatabaseService.create_episode no_faults (db fresh_state) "e9" "x1" "T" "C")))
    as (_ & H & _); [reflexivity|reflexivity|exact H].
Defined.

(** [DatabaseService.update_episode] followed by [get_episode_by_id]: an
    update that returns the episode stored it under the same id and owner
    with the new title and content; every other id is unaffected. *)
Theorem db_update_then_get F d episode_id title content ep' d' :
  DatabaseService.update_episode F d episode_id title content = (Some ep', d') ->
  (exists ep, DatabaseService.get_episode_by_id d episode_id = Some ep /\
     ep' = {| ep_id := episode_id; ep_expert_id := ep_expert_id ep;
              ep_title := title; ep_content := content |}) /\
  DatabaseService.get_episode_by_id d' episode_id = Some ep' /\
  (forall id, id <> episode_id ->
     DatabaseService.get_episode_by_id d' id = DatabaseService.get_episode_by_id d id).
Proof.
  unfold DatabaseService.update_episode.
  destruct (DatabaseService.get_episode_by_id d episode_id) as [ep|] eqn:Hg; [|discriminate].
  destruct (f_commit F); [discriminate|]. destruct (f_refresh F); [discriminate|]. intros H. injection H as <- <-.
  pose proof (find_episode_id _ _ _ Hg) as Hid.
  unfold DatabaseService.get_episode_by_id, DatabaseService.set_episode in *. simpl.
  split; [exists ep; rewrite Hid; auto|]. split.
  - rewrite <- Hid in Hg |- *.
    exact (find_set_same (DatabaseService.episodes d)
             {| ep_id := ep_id ep; ep_expert_id := ep_expert_id ep;
                ep_title := title; ep_content := content |} ep Hg).
  - intros id Hne.
    exact (find_set_other (DatabaseService.episodes d)
             {| ep_id := ep_id ep; ep_expert_id := ep_expert_id ep;
                ep_title := title; ep_content := content |} id ltac:(simpl; congruence)).
Qed.

Lemma db_update_then_get_witness :
  DatabaseService.get_episode_by_id
    (snd (DatabaseService.update_episode no_faults (db stored_state) "e1" "New" "Text")) "e1"
  = Some {| ep_id := "e1"; ep_expert_id := "x1"; ep_title := "New"; ep_content := "Text" |}.
Proof.
  destruct (db_update_then_get no_faults (db stored_state) "e1" "New" "Text"
              {| ep_id := "e1"; ep_expert_id := "x1"; ep_title := "New"; ep_content := "Text" |}
              (snd (DatabaseService.update_episode no_faults (db stored_state) "e1" "New" "Text")))
    as (_ & H & _); [reflexivity|exact H].
Defined.

(** [DatabaseService.delete_episode]: [True] only for an existing row,
    which is then gone while every other id is unaffected; [False] leaves
    the rows unchanged. *)
Theorem db_delete_then_get F d episode_id b d' :
  DatabaseService.delete_episode F d episode_id = (b, d') ->
  (b = true ->
     DatabaseService.get_episode_by_id d episode_id <> None /\
     DatabaseService.get_episode_by_id d' episode_id = None /\
     (forall id, id <> episode_id ->
        DatabaseService.get_episode_by_id d' id = DatabaseService.get_episode_by_id d id)) /\
  (b = false -> d' = d).
Proof.
  unfold DatabaseService.delete_episode.
  destruct (DatabaseService.get_episode_by_id d episode_id) as [ep|] eqn:Hg.
  - destruct (f_commit F); intros H; injection H as <- <-.
    + split; [discriminate|auto].
    + split; [|discriminate]. intros _. split; [discriminate|].
      unfold DatabaseService.get_episode_by_id. simpl. split.
      * apply find_filter_gone.
      * intros id Hid. apply find_filter_other. exact Hid.
  - intros H. injection H as <- <-. split; [discriminate|auto].
Qed.

Lemma db_delete_then_get_witness :
  DatabaseService.get_episode_by_id
    (snd (DatabaseService.delete_episode no_faults (db stored_state) "e1")) "e1" = None.
Proof.
  destruct (db_delete_then_get no_faults (db stored_state) "e1" true
              (snd (DatabaseService.delete_episode no_faults (db stored_state) "e1")))
    as [H _]; [reflexivity|].
  destruct (H eq_refl) as (_ & H1 & _). exact H1.
Defined.

(** ** Namespaces *)

Lemma lookup_set_other (sp : list (string * list Vector)) (ns ns' : string) (vs : list Vector) :
  ns' <> ns -> lookup_ns (set_ns sp ns vs) ns' = lookup_ns sp ns'.
Proof.
  intros Hne. induction sp as [|[n ws] rest IH]; simpl.
  - destruct (String.eqb_spec ns ns'); [congruence|reflexivity].
  - destruct (String.eqb_spec n ns) as [->|Hn]; simpl.
    + destruct (String.eqb_spec ns ns'); [congruence|reflexivity].
    + destruct (String.eqb n ns'); [reflexivity|exact IH].
Qed.

Lemma map_chars_map_chars (f g : ascii -> ascii) (s : string) :
  map_chars f (map_chars g s) = map_chars (fun c => f (g c)) s.
Proof. induction s as [|c s IH]; simpl; [reflexivity|now rewrite IH]. Qed.

Lemma map_chars_ext (f g : ascii -> ascii) (s : string) :
  (forall c, f c = g c) -> map_chars f s = map_chars g s.
Proof. intros H. induction s as [|c s IH]; simpl; [reflexivity|now rewrite H, IH]. Qed.

Lemma namespace_char_idem (c : ascii) :
  let h := fun c => if Ascii.eqb (lower_char c) " " then "_"%char else lower_char c in
  h (h c) = h c.
Proof. destruct c as [[] [] [] [] [] [] [] []]; reflexivity. Qed.

Lemma namespace_of_idem (name : string) :
  PineconeService.namespace_of (PineconeService.namespace_of name) = PineconeService.namespace_of name.
Proof.
  unfold PineconeService.namespace_of, replace_char, lower.
  rewrite !map_chars_map_chars.
  apply map_chars_ext. intros c. exact (namespace_char_idem c).
Qed.

(** [PineconeService.delete_namespace] normalises its argument like
    [store_episode_content] does, and normalising twice changes nothing:
    passing the derived namespace or the expert name has the same effect. *)
Theorem delete_namespace_normalised F idx name :
  PineconeService.delete_namespace F idx (PineconeService.namespace_of name)
  = PineconeService.delete_namespace F idx name.
Proof.
  unfold PineconeService.delete_namespace, PineconeService.delete_namespace_body.
  rewrite namespace_of_idem. reflexivity.
Qed.

(** After [PineconeService.delete_namespace] returns [True], the derived
    namespace holds no vector and every other namespace is unchanged. *)
Theorem delete_namespace_empties F idx name idx' :
  PineconeService.delete_namespace F idx name = Ok (true, idx') ->
  records idx' (PineconeService.namespace_of name) = [] /\
  (forall ns, ns <> PineconeService.namespace_of name -> records idx' ns = records idx ns).
Proof.
  unfold PineconeService.delete_namespace, PineconeService.delete_namespace_body,
    PineconeService.pc_Index, index_delete_all.
  destruct (f_index F), (f_delete F); cbn [py_bind]; intros H; try discriminate.
  injection H as <-. unfold records, delete_all. simpl. split.
  - apply lookup_set_same.
  - intros ns Hns. apply lookup_set_other. exact Hns.
Qed.

Lemma delete_namespace_empties_witness :
  exists idx',
    PineconeService.delete_namespace no_faults stored_index "Finance 101" = Ok (true, idx') /\
    records idx' "finance_101" = [].
Proof.
  eexists. split; [reflexivity|].
  exact (proj1 (delete_namespace_empties no_faults stored_index "Finance 101" _ eq_refl)).
Defined.

(** ** Vectors of a namespace *)

Lemma store_episode_content_cases P F idx ep name b idx' :
  PineconeService.store_episode_content P F idx ep name = Ok (b, idx') ->
  (b = false /\ idx' = idx) \/
  (b = true /\ idx' = upsert idx (PineconeService.namespace_of name)
     (PineconeService.build_vectors (ep_id ep) (ep_title ep) 0
        (TextSplitter.split_text (PineconeService.full_content ep))
        (map (embed P) (TextSplitter.split_text (PineconeService.full_content ep))))).
Proof.
  destruct b; intros H.
  - right. split; [reflexivity|].
    pose proof (store_episode_content_success P F idx ep name idx' H) as E. exact E.
  - left. split; [reflexivity|]. revert H. unfold PineconeService.store_episode_content.
    destruct (PineconeService.store_body _ _ _ _ _); intros H; inversion H; reflexivity.
Qed.

Lemma records_upsert_same idx ns vs :
  records (upsert idx ns vs) ns = fold_left upsert_one vs (records idx ns).
Proof. unfold records at 1, upsert. simpl. apply lookup_set_same. Qed.

Lemma records_upsert_other idx ns ns' vs :
  ns' <> ns -> records (upsert idx ns vs) ns' = records idx ns'.
Proof. intros H. unfold records, upsert. simpl. apply lookup_set_other, H. Qed.

Lemma records_delete_ids_same idx ns ids :
  records (delete_ids idx ns ids) ns
  = filter (fun r => negb (existsb (String.eqb (v_id r)) ids)) (records idx ns).
Proof. unfold records at 1, delete_ids. simpl. apply lookup_set_same. Qed.

Lemma records_delete_ids_other idx ns ns' ids :
  ns' <> ns -> records (delete_ids idx ns ids) ns' = records idx ns'.
Proof. intros H. unfold records, delete_ids. simpl. apply lookup_set_other, H. Qed.

Lemma records_delete_nil idx ns ns' : records (delete_ids idx ns []) ns' = records idx ns'.
Proof.
  destruct (String.eqb_spec ns' ns) as [->|Hne].
  - rewrite records_delete_ids_same. apply filter_all_true. reflexivity.
  - apply records_delete_ids_other, Hne.
Qed.

Lemma store_records_other P F idx ep name b idx' ns :
  PineconeService.store_episode_content P F idx ep name = Ok (b, idx') ->
  ns <> PineconeService.namespace_of name -> records idx' ns = records idx ns.
Proof.
  intros H Hns.
  destruct (store_episode_content_cases P F idx ep name b idx' H) as [[_ ->]|[_ ->]];
    [reflexivity|apply records_upsert_other, Hns].
Qed.

(** Every outcome of [PineconeService.delete_episode] is a deletion of
    some ids in the given namespace (none when it deletes nothing). *)
Lemma delete_episode_shape P F cfg idx episode_id namespace b idx' :
  PineconeService.delete_episode P F cfg idx episode_id namespace = Ok (b, idx') ->
  exists ids, forall ns, records idx' ns = records (delete_ids idx namespace ids) ns.
Proof.
  unfold PineconeService.delete_episode, PineconeService.delete_body,
    PineconeService.pc_Index, Pinecone.query, index_delete.
  destruct (f_index F); cbn [py_bind].
  { intros H; injection H as _ <-. exists []. intros ns. symmetry. apply records_delete_nil. }
  destruct (f_query F); cbn [py_bind].
  { intros H; injection H as _ <-. exists []. intros ns. symmetry. apply records_delete_nil. }
  destruct (map m_id _) as [|id ids] eqn:Hids.
  - intros H; injection H as _ <-. exists []. intros ns.
    rewrite records_delete_nil. reflexivity.
  - destruct (f_delete F); intros H; injection H as _ <-.
    + exists []. intros ns. symmetry. apply records_delete_nil.
    + exists (id :: ids). intros ns. reflexivity.
Qed.

Lemma delete_episode_false P F cfg idx episode_id namespace idx' :
  PineconeService.delete_episode P F cfg idx episode_id namespace = Ok (false, idx') -> idx' = idx.
Proof.
  unfold PineconeService.delete_episode.
  destruct (PineconeService.delete_body _ _ _ _ _ _); intros H; inversion H; reflexivity.
Qed.

Lemma delete_namespace_cases F idx name b idx' :
  PineconeService.delete_namespace F idx name = Ok (b, idx') ->
  idx' = idx \/ idx' = delete_all idx (PineconeService.namespace_of name).
Proof.
  unfold PineconeService.delete_namespace, PineconeService.delete_namespace_body,
    PineconeService.pc_Index, index_delete_all.
  destruct (f_index F), (f_delete F); cbn [py_bind]; intros H; injection H as _ <-; auto.
Qed.

Lemma upsert_one_ids (recs : list Vector) (v : Vector) (i : string) :
  In i (map v_id (upsert_one recs v)) -> In i (map v_id recs) \/ i = v_id v.
Proof.
  induction recs as [|r recs IH]; simpl.
  - intros [H|[]]. right. symmetry. exact H.
  - destruct (String.eqb (v_id r) (v_id v)) eqn:E; simpl.
    + apply String.eqb_eq in E. intros [H|H]; [right; congruence|left; right; exact H].
    + intros [H|H]; [left; left; exact H|].
      destruct (IH H); [left; right; assumption|right; assumption].
Qed.

Lemma upsert_one_nodup (recs : list Vector) (v : Vector) :
  NoDup (map v_id recs) -> NoDup (map v_id (upsert_one recs v)).
Proof.
  induction recs as [|r recs IH]; simpl; intros H.
  - constructor; [intros []|constructor].
  - inversion H as [|? ? Hnin Hnd]; subst.
    destruct (String.eqb (v_id r) (v_id v)) eqn:E; simpl.
    + apply String.eqb_eq in E. rewrite <- E. exact H.
    + constructor; [|exact (IH Hnd)].
      intros Hin. destruct (upsert_one_ids _ _ _ Hin) as [Hr|Hr]; [exact (Hnin Hr)|].
      apply String.eqb_neq in E. exact (E Hr).
Qed.

Lemma fold_upsert_nodup (vs recs : list Vector) :
  NoDup (map v_id recs) -> NoDup (map v_id (fold_left upsert_one vs recs)).
Proof.
  revert recs. induction vs as [|v vs IH]; intros recs H; simpl; [exact H|].
  apply IH, upsert_one_nodup, H.
Qed.

(** Dropping vectors never creates a duplicate id. *)
Lemma filter_keeps_ids_unique (keep : Vector -> bool) (recs : list Vector) :
  NoDup (map v_id recs) -> NoDup (map v_id (filter keep recs)).
Proof.
  induction recs as [|r recs IH]; simpl; intros Hnd; [constructor|].
  apply NoDup_cons_iff in Hnd as [Hr Hrest].
  destruct (keep r); simpl; [|exact (IH Hrest)].
  apply NoDup_cons; [|exact (IH Hrest)].
  intros Hin. apply Hr. apply in_map_iff in Hin as (r' & Hid & Hin').
  apply filter_In in Hin'. rewrite <- Hid. exact (in_map v_id _ _ (proj1 Hin')).
Qed.

Lemma ids_unique_upsert idx ns vs : ids_unique idx -> ids_unique (upsert idx ns vs).
Proof.
  intros H ns'. destruct (String.eqb_spec ns' ns) as [->|Hne].
  - rewrite records_upsert_same. apply fold_upsert_nodup, H.
  - rewrite records_upsert_other by exact Hne. apply H.
Qed.

Lemma ids_unique_delete_ids idx ns ids : ids_unique idx -> ids_unique (delete_ids idx ns ids).
Proof.
  intros H ns'. destruct (String.eqb_spec ns' ns) as [->|Hne].
  - rewrite records_delete_ids_same. apply filter_keeps_ids_unique, H.
  - rewrite records_delete_ids_other by exact Hne. apply H.
Qed.

Lemma ids_unique_delete_all idx ns : ids_unique idx -> ids_unique (delete_all idx ns).
Proof.
  intros H ns'. unfold records, delete_all. simpl.
  destruct (String.eqb_spec ns' ns) as [->|Hne].
  - rewrite lookup_set_same. constructor.
  - rewrite lookup_set_other by exact Hne. apply H.
Qed.

Lemma upsert_one_fresh (recs : list Vector) (v : Vector) :
  (forall r, In r recs -> v_id r <> v_id v) -> upsert_one recs v = (recs ++ [v])%list.
Proof.
  induction recs as [|r recs IH]; simpl; intros H; [reflexivity|].
  destruct (String.eqb_spec (v_id r) (v_id v)) as [E|_].
  - exfalso. exact (H r (or_introl eq_refl) E).
  - f_equal. apply IH. intros r' Hr'. apply H. right. exact Hr'.
Qed.

Lemma fold_upsert_fresh (vs recs : list Vector) :
  NoDup (map v_id vs) -> (forall r, In r recs -> ~ In (v_id r) (map v_id vs)) ->
  fold_left upsert_one vs recs = (recs ++ vs)%list.
Proof.
  revert recs. induction vs as [|v vs IH]; intros recs Hnd Hfr; simpl.
  - rewrite app_nil_r. reflexivity.
  - inversion Hnd as [|? ? Hnin Hnd']; subst.
    rewrite upsert_one_fresh.
    2: { intros r Hr E. apply (Hfr r Hr). rewrite E. left. reflexivity. }
    rewrite IH; [rewrite <- app_assoc; reflexivity|exact Hnd'|].
    intros r Hr. apply in_app_or in Hr as [Hr|[<-|[]]].
    + intros Hin. apply (Hfr r Hr). right. exact Hin.
    + exact Hnin.
Qed.

Lemma build_vectors_nodup eid t i cs es :
  NoDup (map v_id (PineconeService.build_vectors eid t i cs es)).
Proof. rewrite build_vectors_ids. apply (Injective_map_NoDup (chunk_id_inj eid)), seq_NoDup. Qed.

Lemma store_records_append P F idx ep name idx' :
  PineconeService.store_episode_content P F idx ep name = Ok (true, idx') ->
  (forall r i, In r (records idx (PineconeService.namespace_of name)) ->
     v_id r <> ep_id ep ++ "_chunk_" ++ str_nat i) ->
  records idx' (PineconeService.namespace_of name)
  = (records idx (PineconeService.namespace_of name) ++
     PineconeService.build_vectors (ep_id ep) (ep_title ep) 0
       (TextSplitter.split_text (PineconeService.full_content ep))
       (map (embed P) (TextSplitter.split_text (PineconeService.full_content ep))))%list.
Proof.
  intros H Hfr. pose proof (store_episode_content_success P F idx ep name idx' H) as E.
  cbv zeta in E. rewrite E, records_upsert_same.
  apply fold_upsert_fresh; [apply build_vectors_nodup|].
  intros r Hr Hin. rewrite build_vectors_ids in Hin. apply in_map_iff in Hin as (i & Hi & _).
  exact (Hfr r i Hr (eq_sym Hi)).
Qed.

Lemma filter_all_false {A} (p : A -> bool) (l : list A) :
  (forall x, In x l -> p x = false) -> filter p l = [].
Proof.
  induction l as [|x l IH]; simpl; intros H; [reflexivity|].
  rewrite (H x (or_introl eq_refl)). apply IH. intros y Hy. apply H. right. exact Hy.
Qed.

Lemma ids_of_query P idx ns qv k im flt i :
  In i (map m_id (query_result P idx ns qv k im flt)) ->
  exists r, In r (filter (passes flt) (records idx ns)) /\ v_id r = i.
Proof.
  unfold query_result. intros H. apply in_map_iff in H as (m & <- & Hm).
  apply in_firstn_in, rank_in, in_map_iff in Hm as (r & <- & Hr). exists r. auto.
Qed.

(** In a namespace with one vector per id, the id determines the vector. *)
Lemma unique_id_same_vector (recs : list Vector) (r1 r2 : Vector) :
  NoDup (map v_id recs) -> In r1 recs -> In r2 recs -> v_id r1 = v_id r2 -> r1 = r2.
Proof.
  intros Hnd H1 H2 Hid. induction recs as [|r recs IH]; [destruct H1|].
  apply NoDup_cons_iff in Hnd as [Hr Hrest].
  destruct H1 as [E1|H1]; destruct H2 as [E2|H2].
  - congruence.
  - subst r. exfalso. apply Hr. rewrite Hid. exact (in_map v_id _ _ H2).
  - subst r. exfalso. apply Hr. rewrite <- Hid. exact (in_map v_id _ _ H1).
  - exact (IH Hrest H1 H2).
Qed.

Lemma format_matches_scores (ms : list Match) (cs : list PineconeService.RelevantChunk) :
  PineconeService.format_matches ms = Ok cs ->
  map PineconeService.rc_score cs = map m_score ms.
Proof.
  revert cs. induction ms as [|m ms IH]; intros cs H; cbn [PineconeService.format_matches] in H.
  - injection H as <-. reflexivity.
  - unfold PineconeService.format_match in H.
    destruct (m_metadata m) as [md|]; cbn [py_bind] in H; [|discriminate].
    destruct (PineconeService.format_matches ms) as [cs'|e] eqn:E; cbn [py_bind] in H; [|discriminate].
    injection H as <-. simpl. f_equal. apply IH. reflexivity.
Qed.

Lemma ranks_before_total (mt : Metric) (a b : Q) :
  ranks_before mt a b = false -> ranks_before mt b a = true.
Proof.
  destruct mt; simpl; intros H; apply Qle_bool_iff, Qlt_le_weak, Qnot_le_lt;
    intros C; apply Qle_bool_iff in C; congruence.
Qed.

Lemma insert_ranked_hd (mt : Metric) (x m : Match) (l : list Match) :
  ranks_before mt (m_score x) (m_score m) = true ->
  HdRel (fun a b => ranks_before mt (m_score a) (m_score b) = true) x l ->
  HdRel (fun a b => ranks_before mt (m_score a) (m_score b) = true) x (insert_ranked mt m l).
Proof.
  intros H1 H2. destruct l as [|m' l]; simpl.
  - constructor. exact H1.
  - destruct (ranks_before mt (m_score m') (m_score m));
      constructor; [inversion H2; assumption|exact H1].
Qed.

Lemma insert_ranked_sorted (mt : Metric) (m : Match) (l : list Match) :
  Sorted (fun a b => ranks_before mt (m_score a) (m_score b) = true) l ->
  Sorted (fun a b => ranks_before mt (m_score a) (m_score b) = true) (insert_ranked mt m l).
Proof.
  induction l as [|m' l IH]; intros H; simpl.
  - repeat constructor.
  - apply Sorted_inv in H as [Hl Hh].
    destruct (ranks_before mt (m_score m') (m_score m)) eqn:E.
    + constructor; [exact (IH Hl)|]. apply insert_ranked_hd; [exact E|exact Hh].
    + constructor; [constructor; assumption|]. constructor. apply ranks_before_total, E.
Qed.

Lemma rank_sorted (mt : Metric) (ms : list Match) :
  Sorted (fun a b => ranks_before mt (m_score a) (m_score b) = true) (rank mt ms).
Proof. induction ms as [|m ms IH]; simpl; [constructor|apply insert_ranked_sorted, IH]. Qed.

Lemma Sorted_firstn {A} (R : A -> A -> Prop) (n : nat) (l : list A) :
  Sorted R l -> Sorted R (firstn n l).
Proof.
  revert l. induction n as [|n IH]; intros l H; [constructor|].
  destruct l as [|a l]; [constructor|]. simpl.
  apply Sorted_inv in H as [Hl Hh]. constructor; [exact (IH l Hl)|].
  destruct n as [|n]; [constructor|]. destruct l as [|b l]; [constructor|].
  simpl. inversion Hh. constructor. assumption.
Qed.

Lemma Sorted_map {A B} (R : A -> A -> Prop) (S : B -> B -> Prop) (f : A -> B) (l : list A) :
  (forall a b, R a b -> S (f a) (f b)) -> Sorted R l -> Sorted S (map f l).
Proof.
  intros Hf H. induction H as [|a l Hl IH Hh]; simpl; constructor; [exact IH|].
  destruct Hh; simpl; constructor. apply Hf. assumption.
Qed.

(** [PineconeService.store_episode_content] writes only to the namespace
    derived from the expert name: every other namespace keeps its vectors,
    whether the call succeeds or not. *)
Theorem store_episode_content_other_namespaces P F idx ep name b idx' ns :
  PineconeService.store_episode_content P F idx ep name = Ok (b, idx') ->
  ns <> PineconeService.namespace_of name -> records idx' ns = records idx ns.
Proof. exact (store_records_other P F idx ep name b idx' ns). Qed.

Lemma store_episode_content_other_namespaces_witness :
  exists b idx',
    PineconeService.store_episode_content P0 no_faults stored_index long_word_episode "Health Talk"
      = Ok (b, idx') /\
    records idx' "finance_101" = records stored_index "finance_101".
Proof.
  destruct (PineconeService.store_episode_content P0 no_faults stored_index long_word_episode
              "Health Talk") as [[b idx']|e] eqn:E.
  - exists b, idx'. split; [reflexivity|].
    apply (store_episode_content_other_namespaces P0 no_faults stored_index long_word_episode
             "Health Talk" b idx' "finance_101" E).
    intros H. vm_compute in H. discriminate H.
  - exfalso. vm_compute in E. discriminate E.
Defined.

(** When no vector of the namespace already has one of the episode's
    chunk ids, a successful [store_episode_content] overwrites nothing:
    the namespace then holds exactly its earlier vectors and the episode's
    chunk vectors, and its size grows by the number of chunks. *)
Theorem store_episode_content_adds_chunks P F idx ep name idx' :
  PineconeService.store_episode_content P F idx ep name = Ok (true, idx') ->
  (forall r i, In r (records idx (PineconeService.namespace_of name)) ->
     v_id r <> ep_id ep ++ "_chunk_" ++ str_nat i) ->
  let ns := PineconeService.namespace_of name in
  let chunks := TextSplitter.split_text (PineconeService.full_content ep) in
  let vs := PineconeService.build_vectors (ep_id ep) (ep_title ep) 0 chunks
              (map (embed P) chunks) in
  (forall v, In v (records idx' ns) <-> In v (records idx ns) \/ In v vs) /\
  List.length (records idx' ns) = List.length (records idx ns) + List.length chunks.
Proof.
  intros H Hfr. cbv zeta. rewrite (store_records_append P F idx ep name idx' H Hfr).
  split; [intros v; apply in_app_iff|].
  rewrite length_app, build_vectors_length, length_map, Nat.min_id. reflexivity.
Qed.

Lemma store_episode_content_adds_chunks_witness :
  List.length (records stored_index "finance_101") = 2.
Proof.
  assert (E : PineconeService.store_episode_content P0 no_faults empty_index old_episode "Finance 101"
              = Ok (true, stored_index)) by (vm_compute; reflexivity).
  change "finance_101" with (PineconeService.namespace_of "Finance 101").
  pose proof (store_episode_content_adds_chunks P0 no_faults empty_index old_episode "Finance 101"
                stored_index E ltac:(intros r i Hr; destruct Hr)) as H.
  cbv zeta in H. rewrite (proj2 H). vm_compute. reflexivity.
Defined.

(** Each namespace holds at most one vector per id, and
    [store_episode_content], [delete_episode] and [delete_namespace] keep
    it so, whatever they return. *)
Theorem vector_ids_stay_unique P F cfg idx ep name episode_id namespace ns_name :
  ids_unique idx ->
  (forall b idx', PineconeService.store_episode_content P F idx ep name = Ok (b, idx') ->
     ids_unique idx') /\
  (forall b idx', PineconeService.delete_episode P F cfg idx episode_id namespace = Ok (b, idx') ->
     ids_unique idx') /\
  (forall b idx', PineconeService.delete_namespace F idx ns_name = Ok (b, idx') ->
     ids_unique idx').
Proof.
  intros H. split; [|split].
  - intros b idx' Hs.
    destruct (store_episode_content_cases P F idx ep name b idx' Hs) as [[_ ->]|[_ ->]];
      [exact H|apply ids_unique_upsert, H].
  - intros b idx' Hd. destruct (delete_episode_shape _ _ _ _ _ _ _ _ Hd) as [ids Hsh].
    intros ns. rewrite Hsh. apply ids_unique_delete_ids, H.
  - intros b idx' Hd. destruct (delete_namespace_cases F idx ns_name b idx' Hd) as [->| ->];
      [exact H|apply ids_unique_delete_all, H].
Qed.

Lemma vector_ids_stay_unique_witness : ids_unique stored_index.
Proof.
  destruct (vector_ids_stay_unique P0 no_faults MyConfig empty_index old_episode "Finance 101"
              "e1" "finance_101" "Finance 101") as [Hs _].
  { intros ns. constructor. }
  unfold stored_index.
  destruct (PineconeService.store_episode_content P0 no_faults empty_index old_episode "Finance 101")
    as [[b i]|e] eqn:E.
  - exact (Hs b i eq_refl).
  - intros ns. constructor.
Defined.

(** Storing an episode and then deleting it restores the index: when the
    episode has at most 10000 chunks and its namespace holds no vector of
    that episode id nor one with one of its chunk ids, a successful
    [store_episode_content] followed by a successful [delete_episode] of
    the episode in the derived namespace leaves every namespace with the
    vectors it had before. *)
Theorem store_then_delete_restores P F F' cfg idx ep name idx1 idx2 :
  List.length (TextSplitter.split_text (PineconeService.full_content ep)) <= 10000 ->
  (forall r, In r (records idx (PineconeService.namespace_of name)) ->
     md_episode_id (v_metadata r) <> ep_id ep) ->
  (forall r i, In r (records idx (PineconeService.namespace_of name)) ->
     v_id r <> ep_id ep ++ "_chunk_" ++ str_nat i) ->
  PineconeService.store_episode_content P F idx ep name = Ok (true, idx1) ->
  PineconeService.delete_episode P F' cfg idx1 (ep_id ep) (PineconeService.namespace_of name)
    = Ok (true, idx2) ->
  forall ns, records idx2 ns = records idx ns.
Proof.
  intros Hlen Hep Hid Hs Hd ns.
  destruct (String.eqb_spec ns (PineconeService.namespace_of name)) as [->|Hne].
  2: { destruct (delete_episode_shape _ _ _ _ _ _ _ _ Hd) as [ids Hsh].
       rewrite Hsh, records_delete_ids_other by exact Hne.
       exact (store_records_other P F idx ep name true idx1 ns Hs Hne). }
  set (N := PineconeService.namespace_of name) in *.
  set (chunks := TextSplitter.split_text (PineconeService.full_content ep)) in *.
  set (vs := PineconeService.build_vectors (ep_id ep) (ep_title ep) 0 chunks (map (embed P) chunks)).
  pose proof (store_records_append P F idx ep name idx1 Hs Hid) as Happ. fold N chunks vs in Happ.
  rewrite (delete_episode_records _ _ _ _ _ _ _ Hd).
  set (ids := map m_id (query_result P idx1 N (repeat 0%Q (PINECONE_DIMENSION cfg)) 10000 true
                          (Some (ep_id ep)))).
  assert (Hf : filter (passes (Some (ep_id ep))) (records idx1 N) = vs).
  { rewrite Happ, filter_app, filter_all_false; [apply build_vectors_pass|].
    intros r Hr. unfold passes. apply String.eqb_neq, Hep, Hr. }
  assert (Hin_vs : forall v, In v vs -> In (v_id v) ids).
  { intros v Hv. apply in_ids_of_match.
    - rewrite Hf. unfold vs. rewrite build_vectors_length, length_map, Nat.min_id. exact Hlen.
    - rewrite Hf. exact Hv. }
  assert (Hnot_old : forall r, In r (records idx N) -> ~ In (v_id r) ids).
  { intros r Hr Hin. destruct (ids_of_query _ _ _ _ _ _ _ _ Hin) as (r' & Hr' & Heq).
    rewrite Hf in Hr'. apply (in_map v_id) in Hr'. unfold vs in Hr'.
    rewrite build_vectors_ids in Hr'. apply in_map_iff in Hr' as (i & Hi & _).
    apply (Hid r i Hr). rewrite <- Heq, <- Hi. reflexivity. }
  rewrite Happ, filter_app, (filter_all_true _ (records idx N)), (filter_all_false _ vs), app_nil_r;
    [reflexivity| |].
  - intros v Hv. apply negb_false_iff, existsb_exists. exists (v_id v).
    split; [exact (Hin_vs v Hv)|apply String.eqb_refl].
  - intros r Hr. apply negb_true_iff.
    destruct (existsb (String.eqb (v_id r)) ids) eqn:E; [|reflexivity].
    apply existsb_exists in E as (i & Hi & Hi'). apply String.eqb_eq in Hi'. subst i.
    exfalso. exact (Hnot_old r Hr Hi).
Qed.

Lemma store_then_delete_restores_witness :
  PineconeService.store_episode_content P0 no_faults empty_index old_episode "Finance 101"
    = Ok (true, stored_index) /\
  PineconeService.delete_episode P0 no_faults MyConfig stored_index "e1" "finance_101"
    = Ok (true, deleted_index) /\
  records deleted_index "finance_101" = [].
Proof.
  assert (E1 : PineconeService.store_episode_content P0 no_faults empty_index old_episode "Finance 101"
               = Ok (true, stored_index)) by (vm_compute; reflexivity).
  assert (E2 : PineconeService.delete_episode P0 no_faults MyConfig stored_index "e1" "finance_101"
               = Ok (true, deleted_index)) by (vm_compute; reflexivity).
  split; [exact E1|]. split; [exact E2|].
  exact (store_then_delete_restores P0 no_faults no_faults MyConfig empty_index old_episode
           "Finance 101" stored_index deleted_index
           ltac:(apply Nat.leb_le; vm_compute; reflexivity)
           ltac:(intros r Hr; destruct Hr) ltac:(intros r i Hr; destruct Hr) E1 E2 "finance_101").
Defined.

(** [PineconeService.delete_episode] only removes vectors of the given
    episode from the given namespace: other namespaces are unchanged, no
    vector is added, and, when the namespace holds one vector per id, every
    vector that disappears carries that episode id. *)
Theorem delete_episode_removes_only_its_vectors P F cfg idx episode_id namespace b idx' :
  NoDup (map v_id (records idx namespace)) ->
  PineconeService.delete_episode P F cfg idx episode_id namespace = Ok (b, idx') ->
  (forall ns, ns <> namespace -> records idx' ns = records idx ns) /\
  incl (records idx' namespace) (records idx namespace) /\
  (forall r, In r (records idx namespace) -> ~ In r (records idx' namespace) ->
     md_episode_id (v_metadata r) = episode_id).
Proof.
  intros Hnd Hd.
  destruct (delete_episode_shape _ _ _ _ _ _ _ _ Hd) as [ids Hsh].
  split; [intros ns Hne; rewrite Hsh; apply records_delete_ids_other, Hne|].
  split.
  { intros r Hr. rewrite Hsh, records_delete_ids_same in Hr. apply filter_In in Hr as [Hr _]. exact Hr. }
  intros r Hr Hgone. destruct b.
  - rewrite (delete_episode_records _ _ _ _ _ _ _ Hd) in Hgone.
    destruct (existsb (String.eqb (v_id r))
                (map m_id (query_result P idx namespace (repeat 0%Q (PINECONE_DIMENSION cfg))
                             10000 true (Some episode_id)))) eqn:E.
    + apply existsb_exists in E as (i & Hi & Hi'). apply String.eqb_eq in Hi'. subst i.
      destruct (ids_of_query _ _ _ _ _ _ _ _ Hi) as (r' & Hr' & Heq).
      apply filter_In in Hr' as [Hr'in Hpass].
      rewrite <- (unique_id_same_vector _ r' r Hnd Hr'in Hr Heq).
      unfold passes in Hpass. apply String.eqb_eq, Hpass.
    + exfalso. apply Hgone. apply filter_In. split; [exact Hr|]. rewrite E. reflexivity.
  - rewrite (delete_episode_false _ _ _ _ _ _ _ Hd) in Hgone. contradiction.
Qed.

Lemma delete_episode_removes_only_its_vectors_witness :
  incl (records deleted_index "finance_101") (records stored_index "finance_101").
Proof.
  assert (E2 : PineconeService.delete_episode P0 no_faults MyConfig stored_index "e1" "finance_101"
               = Ok (true, deleted_index)) by (vm_compute; reflexivity).
  refine (proj1 (proj2 (delete_episode_removes_only_its_vectors P0 no_faults MyConfig stored_index
                          "e1" "finance_101" true deleted_index _ E2))).
  vm_compute. constructor; [intros [H|[]]; discriminate H|].
  constructor; [intros []|constructor].
Defined.

(** [PineconeService.query_knowledge] never changes the stored vectors. *)
Theorem query_knowledge_read_only P F cfg idx query namespace include_metadata rs idx' :
  PineconeService.query_knowledge P F cfg idx query namespace include_metadata = Ok (rs, idx') ->
  spaces idx' = spaces idx.
Proof.
  unfold PineconeService.query_knowledge.
  destruct (PineconeService.query_body P F cfg idx query namespace include_metadata)
    as [[rs0 idx0]|e] eqn:E; intros H; injection H as <- <-; [|reflexivity].
  revert E. unfold PineconeService.query_body, PineconeService.pc_Index,
    PineconeService.embed_query, PineconeService.config_top_k, Pinecone.query.
  destruct (f_index F), (f_embed F), (PINECONE_TOP_K cfg), (f_query F);
    cbn [py_bind]; try discriminate.
  destruct (PineconeService.format_matches _); cbn [py_bind]; intros E;
    [injection E as _ <-; reflexivity|discriminate].
Qed.

Lemma query_knowledge_read_only_witness :
  exists rs idx',
    PineconeService.query_knowledge P0 no_faults topk_config scored_index "q" "finance_101" true
      = Ok (rs, idx') /\ spaces idx' = spaces scored_index.
Proof.
  destruct (PineconeService.query_knowledge P0 no_faults topk_config scored_index "q" "finance_101"
              true) as [[rs idx']|e] eqn:E.
  - exists rs, idx'. split; [reflexivity|].
    exact (query_knowledge_read_only P0 no_faults topk_config scored_index "q" "finance_101" true
             rs idx' E).
  - exfalso. vm_compute in E. discriminate E.
Defined.

(** With [PINECONE_TOP_K = k] configured, [query_knowledge] returns at
    most [k] chunks, best first for the index's metric: scores never
    increase for cosine and dot product, distances never decrease for
    euclidean. *)
Theorem query_knowledge_ranked P F cfg idx query namespace include_metadata k rs idx' :
  PINECONE_TOP_K cfg = Some k ->
  PineconeService.query_knowledge P F cfg idx query namespace include_metadata = Ok (rs, idx') ->
  List.length rs <= k /\
  Sorted (fun x y => ranks_before (metric P) x y = true) (map PineconeService.rc_score rs).
Proof.
  intros Hk. unfold PineconeService.query_knowledge.
  destruct (PineconeService.query_body P F cfg idx query namespace include_metadata)
    as [[rs0 idx0]|e] eqn:E; intros H; injection H as <- <-.
  2: { split; [simpl; lia|constructor]. }
  revert E. unfold PineconeService.query_body, PineconeService.pc_Index,
    PineconeService.embed_query, PineconeService.config_top_k, Pinecone.query.
  rewrite Hk. destruct (f_index F), (f_embed F), (f_query F); cbn [py_bind]; try discriminate.
  destruct (PineconeService.format_matches _) as [cs|] eqn:Ef; cbn [py_bind]; intros E;
    [|discriminate].
  injection E as <- _. apply format_matches_scores in Ef. split.
  - apply (f_equal (@List.length Q)) in Ef. rewrite !length_map in Ef. rewrite Ef.
    unfold query_result. rewrite length_firstn. lia.
  - rewrite Ef. unfold query_result.
    apply (Sorted_map (fun a b => ranks_before (metric P) (m_score a) (m_score b) = true));
      [auto|].
    apply Sorted_firstn, rank_sorted.
Qed.

Lemma query_knowledge_ranked_witness :
  exists rs idx',
    PineconeService.query_knowledge P0 no_faults topk_config scored_index "q" "finance_101" true
      = Ok (rs, idx') /\ List.length rs <= 5.
Proof.
  destruct (PineconeService.query_knowledge P0 no_faults topk_config scored_index "q" "finance_101"
              true) as [[rs idx']|e] eqn:E.
  - exists rs, idx'. split; [reflexivity|].
    exact (proj1 (query_knowledge_ranked P0 no_faults topk_config scored_index "q" "finance_101"
                    true 5 rs idx' eq_refl E)).
  - exfalso. vm_compute in E. discriminate E.
Defined.

(** ** Episode manager *)

Lemma store_no_faults P F idx ep name :
  f_index F = false -> f_embed F = false -> f_upsert F = false ->
  exists idx', PineconeService.store_episode_content P F idx ep name = Ok (true, idx').
Proof.
  intros Hi He Hu. unfold PineconeService.store_episode_content, PineconeService.store_body,
    PineconeService.pc_Index, PineconeService.embed_documents, index_upsert.
  rewrite Hi, He, Hu. cbn [py_bind]. eauto.
Qed.

Lemma create_episode_effect P F st new_id expert_id data r st' :
  EpisodeManager.create_episode P F st new_id expert_id data = Ok (r, st') ->
  let ep := {| ep_id := new_id; ep_expert_id := expert_id;
                ep_title := dict_get data "title" ""; ep_content := dict_get data "content" "" |} in
  (r = (BodyEpisode ep, 201) /\
   DatabaseService.experts (db st') = DatabaseService.experts (db st) /\
   DatabaseService.episodes (db st') = (DatabaseService.episodes (db st) ++ [ep])%list)
  \/ (success (fst r) = false /\ snd r = 400 /\ st' = st)
  \/ (r = (BodyError "Failed to create episode", 500) /\ index st' = index st /\
      DatabaseService.experts (db st') = DatabaseService.experts (db st) /\
      (DatabaseService.episodes (db st') = DatabaseService.episodes (db st) \/
       DatabaseService.episodes (db st') = (DatabaseService.episodes (db st) ++ [ep])%list)).
Proof.
  unfold EpisodeManager.create_episode. cbv beta zeta.
  destruct (DatabaseService.get_expert_by_id (db st) expert_id) as [ex|].
  2: { cbn [EpisodeManager._validate_data negb]. intros H; injection H as <- <-.
       right; left. auto. }
  destruct (EpisodeManager._validate_data (Some ex) data) as [[|] msg].
  2: { cbn [negb]. intros H; injection H as <- <-. right; left. auto. }
  cbn [negb]. unfold DatabaseService.create_episode.
  destruct (f_commit F); [|destruct (f_refresh F)]; cbv beta iota zeta.
  - intros H; injection H as <- <-. right; right. auto.
  - intros H; injection H as <- <-. right; right. auto.
  - destruct (PineconeService.store_episode_content P F (index st) _ (ex_name ex))
      as [[b idx1]|e]; cbn [py_bind]; intros H; [injection H as <- <-|discriminate].
    left. auto.
Qed.


(** [EpisodeManager.create_episode] answers 201 with the new row after
    appending that row, holding the title and content exactly as sent (not
    stripped), to the episode table; or answers 400 and changes neither
    store; or answers 500 "Failed to create episode" with the vectors
    untouched and the episode table either unchanged (the commit failed)
    or already holding the new row (what runs after the commit failed).
    The expert table never changes. *)
Theorem create_episode_db_effect P F st new_id expert_id data r st' :
  EpisodeManager.create_episode P F st new_id expert_id data = Ok (r, st') ->
  let ep := {| ep_id := new_id; ep_expert_id := expert_id;
                ep_title := dict_get data "title" ""; ep_content := dict_get data "content" "" |} in
  (r = (BodyEpisode ep, 201) /\
   DatabaseService.experts (db st') = DatabaseService.experts (db st) /\
   DatabaseService.episodes (db st') = (DatabaseService.episodes (db st) ++ [ep])%list)
  \/ (success (fst r) = false /\ snd r = 400 /\ st' = st)
  \/ (r = (BodyError "Failed to create episode", 500) /\ index st' = index st /\
      DatabaseService.experts (db st') = DatabaseService.experts (db st) /\
      (DatabaseService.episodes (db st') = DatabaseService.episodes (db st) \/
       DatabaseService.episodes (db st') = (DatabaseService.episodes (db st) ++ [ep])%list)).
Proof. exact (create_episode_effect P F st new_id expert_id data r st'). Qed.

Lemma create_episode_db_effect_witness :
  exists r st',
    EpisodeManager.create_episode P0 no_faults stored_state "e2" "x1"
      [("title", " Risk "); ("content", new_content)] = Ok (r, st') /\
    r = (BodyEpisode {| ep_id := "e2"; ep_expert_id := "x1";
                        ep_title := " Risk "; ep_content := new_content |}, 201) /\
    DatabaseService.episodes (db st') = (DatabaseService.episodes (db stored_state) ++
      [{| ep_id := "e2"; ep_expert_id := "x1"; ep_title := " Risk "; ep_content := new_content |}])%list.
Proof.
  destruct (EpisodeManager.create_episode P0 no_faults stored_state "e2" "x1"
              [("title", " Risk "); ("content", new_content)]) as [[r st']|e] eqn:E.
  - exists r, st'. split; [reflexivity|].
    pose proof (create_episode_db_effect P0 no_faults stored_state "e2" "x1"
                  [("title", " Risk "); ("content", new_content)] r st' E) as H.
    cbv zeta in H. destruct H as [(Hr & _ & He)|[(Hs & _)|(Hr & _)]].
    + split; [exact Hr|exact He].
    + exfalso. vm_compute in E. injection E as <- _. discriminate Hs.
    + exfalso. vm_compute in E. injection E as <- _. discriminate Hr.
  - exfalso. vm_compute in E. discriminate E.
Defined.

(** After [create_episode] answers 201 with an episode, listing the
    expert's episodes gives that episode first, followed by the ones
    listed before. *)
Theorem create_then_get_episodes P F st new_id expert_id data ep st' :
  EpisodeManager.create_episode P F st new_id expert_id data = Ok ((BodyEpisode ep, 201), st') ->
  DatabaseService.get_episodes (db st') expert_id
  = ep :: DatabaseService.get_episodes (db st) expert_id.
Proof.
  intros H. pose proof (create_episode_effect _ _ _ _ _ _ _ _ H) as Hc. cbv zeta in Hc.
  destruct Hc as [[Hr [_ He]]|[[Hs _]|[Hr _]]].
  - injection Hr as ->. unfold DatabaseService.get_episodes. rewrite He, filter_app.
    cbn [filter ep_expert_id]. rewrite String.eqb_refl. apply rev_unit.
  - discriminate Hs.
  - discriminate Hr.
Qed.

Lemma create_then_get_episodes_witness :
  DatabaseService.get_episodes (db stored_state) "x1" = [old_episode] /\
  exists st',
    EpisodeManager.create_episode P0 no_faults stored_state "e2" "x1" update_data
      = Ok ((BodyEpisode {| ep_id := "e2"; ep_expert_id := "x1"; ep_title := "Intro";
                           ep_content := new_content |}, 201), st') /\
    DatabaseService.get_episodes (db st') "x1"
    = [{| ep_id := "e2"; ep_expert_id := "x1"; ep_title := "Intro"; ep_content := new_content |};
       old_episode].
Proof.
  split; [vm_compute; reflexivity|].
  destruct (EpisodeManager.create_episode P0 no_faults stored_state "e2" "x1" update_data)
    as [[r st']|e] eqn:E.
  - pose proof E as E'. vm_compute in E'. injection E' as <- _.
    exists st'. split; [reflexivity|].
    exact (create_then_get_episodes P0 no_faults stored_state "e2" "x1" update_data _ st' E).
  - exfalso. vm_compute in E. discriminate E.
Defined.



(** [EpisodeManager.get_episodes] never answers 404: when no episode row
    refers to the given expert id, whether or not that expert exists, it
    answers 200 with an empty list. *)
Theorem get_episodes_no_rows st expert_id :
  (forall e, In e (DatabaseService.episodes (db st)) -> ep_expert_id e <> expert_id) ->
  EpisodeManager.get_episodes st expert_id = Ok ([], 200).
Proof.
  intros H. unfold EpisodeManager.get_episodes, DatabaseService.get_episodes.
  rewrite filter_all_false; [reflexivity|].
  intros e He. apply String.eqb_neq, H, He.
Qed.

Lemma get_episodes_no_rows_witness :
  DatabaseService.get_expert_by_id (db shared_state) "x9" = None /\
  EpisodeManager.get_episodes shared_state "x9" = Ok ([], 200).
Proof.
  split; [vm_compute; reflexivity|].
  apply get_episodes_no_rows. intros e [<-|[]] H. vm_compute in H. discriminate H.
Defined.

(** [EpisodeManager.delete_episode] does not check that the episode
    belongs to the expert of the request: with no failure, for any
    existing expert and any existing episode it answers 200, the episode
    row is gone, and the vector deletion ran in the requesting expert's
    namespace, so the vectors of every other namespace (the owner's
    included) are left as they were. *)
Theorem delete_episode_ignores_owner P F cfg st expert_id episode_id ex ep :
  f_index F = false -> f_query F = false -> f_delete F = false -> f_commit F = false ->
  DatabaseService.get_expert_by_id (db st) expert_id = Some ex ->
  DatabaseService.get_episode_by_id (db st) episode_id = Some ep ->
  exists st',
    EpisodeManager.delete_episode P F cfg st expert_id episode_id
      = Ok ((BodyMessage "Episode deleted successfully", 200), st') /\
    DatabaseService.get_episode_by_id (db st') episode_id = None /\
    (forall ns, ns <> PineconeService.namespace_of (ex_name ex) ->
       records (index st') ns = records (index st) ns).
Proof.
  intros Hi Hq Hd Hc Hex Hep.
  destruct (delete_episode_no_faults P F cfg (index st) episode_id
              (PineconeService.namespace_of (ex_name ex)) Hi Hq Hd) as [idx1 Hdel].
  destruct (delete_episode_shape _ _ _ _ _ _ _ _ Hdel) as [ids Hsh].
  unfold EpisodeManager.delete_episode. rewrite Hex, Hep, Hdel. cbn [py_bind negb].
  unfold DatabaseService.delete_episode. rewrite Hep, Hc. cbv beta iota zeta.
  eexists. split; [reflexivity|]. split.
  - unfold DatabaseService.get_episode_by_id. apply find_filter_gone.
  - intros ns Hne. cbn [EpisodeManager.index]. rewrite Hsh. apply records_delete_ids_other, Hne.
Qed.

Lemma delete_episode_ignores_owner_witness :
  exists st',
    EpisodeManager.delete_episode P0 no_faults MyConfig shared_state "x2" "e1"
      = Ok ((BodyMessage "Episode deleted successfully", 200), st') /\
    records (index st') "finance_101" = records stored_index "finance_101".
Proof.
  destruct (delete_episode_ignores_owner P0 no_faults MyConfig shared_state "x2" "e1"
              expert2 old_episode eq_refl eq_refl eq_refl eq_refl)
    as (st' & H1 & _ & H3); [vm_compute; reflexivity|vm_compute; reflexivity|].
  exists st'. split; [exact H1|]. apply H3.
  intros H. vm_compute in H. discriminate H.
Defined.

(** [EpisodeManager.update_episode] does not check that the episode
    belongs to the expert of the request either: with no failure, valid
    data, an existing expert and any existing episode, it answers 200 and
    the row holds the new title and content under its original owner. *)
Theorem update_episode_ignores_owner P F cfg st expert_id episode_id data ex ep msg :
  f_index F = false -> f_embed F = false -> f_query F = false -> f_upsert F = false ->
  f_delete F = false -> f_commit F = false -> f_refresh F = false ->
  DatabaseService.get_expert_by_id (db st) expert_id = Some ex ->
  EpisodeManager._validate_data (Some ex) data = (true, msg) ->
  DatabaseService.get_episode_by_id (db st) episode_id = Some ep ->
  exists st',
    EpisodeManager.update_episode P F cfg st expert_id episode_id data = Ok ((BodyOk, 200), st') /\
    DatabaseService.get_episode_by_id (db st') episode_id
    = Some {| ep_id := ep_id ep; ep_expert_id := ep_expert_id ep;
              ep_title := dict_get data "title" ""; ep_content := dict_get data "content" "" |}.
Proof.
  intros Hi He Hq Hu Hd Hc Hr Hex Hv Hep.
  pose proof (find_episode_id _ _ _ Hep) as Hid. subst episode_id.
  destruct (delete_episode_no_faults P F cfg (index st) (ep_id ep) (ex_name ex) Hi Hq Hd)
    as [idx1 Hdel].
  destruct (store_no_faults P F idx1
              {| ep_id := ep_id ep; ep_expert_id := ep_expert_id ep;
                 ep_title := dict_get data "title" "";
                 ep_content := dict_get data "content" "" |} (ex_name ex) Hi He Hu) as [idx2 Hst].
  unfold EpisodeManager.update_episode. cbv beta zeta. rewrite Hex, Hv.
  unfold DatabaseService.update_episode. rewrite Hep, Hc, Hr. cbv beta iota zeta.
  rewrite Hdel. cbn [py_bind negb]. rewrite Hst. cbn [py_bind negb].
  eexists. split; [reflexivity|].
  exact (find_set_same (DatabaseService.episodes (db st))
           {| ep_id := ep_id ep; ep_expert_id := ep_expert_id ep;
              ep_title := dict_get data "title" "";
              ep_content := dict_get data "content" "" |} ep Hep).
Qed.

Lemma update_episode_ignores_owner_witness :
  exists st',
    EpisodeManager.update_episode P0 no_faults MyConfig shared_state "x2" "e1" update_data
      = Ok ((BodyOk, 200), st') /\
    DatabaseService.get_episode_by_id (db st') "e1"
    = Some {| ep_id := "e1"; ep_expert_id := "x1"; ep_title := "Intro";
              ep_content := new_content |}.
Proof.
  destruct (update_episode_ignores_owner P0 no_faults MyConfig shared_state "x2" "e1" update_data
              expert2 old_episode "" eq_refl eq_refl eq_refl eq_refl eq_refl eq_refl eq_refl)
    as (st' & H1 & H2); [vm_compute; reflexivity|vm_compute; reflexivity|vm_compute; reflexivity|].
  exists st'. split; [exact H1|exact H2].
Defined.
